(** * PyMiniRacer: the build script [setup.py]

    A shallow embedding of the build orchestration of [setup.py]: the
    platform-dependent file names of the engine library, the [build_v8]
    command and the [build_ext] command that copies the library into the
    package.  Python strings are [string]s, exceptions are values of
    [PyExc], and code that touches the outside world (file system,
    subprocesses, printing) is written in a small trace-and-exception
    monad over an environment that answers the script's queries. *)

From Stdlib Require Import String Ascii List Bool Arith ZArith Floats Lia.
From stdpp Require Import base strings gmap list.

Open Scope string_scope.
Open Scope list_scope.

(** ** Python string operations used by the script *)

Module PyStr.

(** [s.startswith(p)] *)
Definition startswith (p s : string) : bool := String.prefix p s.

(** The last character of [s], if any. *)
Fixpoint last_char (s : string) : option ascii :=
  match s with
  | EmptyString => None
  | String c EmptyString => Some c
  | String _ rest => last_char rest
  end.

(** [s.endswith(c)] for a one-character suffix [c]. *)
Definition endswith_char (c : ascii) (s : string) : bool :=
  match last_char s with
  | Some d => Ascii.eqb c d
  | None => false
  end.

(** [s.split(c)] for a one-character separator: the maximal pieces of
    [s] between occurrences of [c]; never the empty list. *)
Fixpoint split (c : ascii) (s : string) : list string :=
  match s with
  | EmptyString => [EmptyString]
  | String x rest =>
      if Ascii.eqb x c then EmptyString :: split c rest
      else match split c rest with
           | [] => [String x EmptyString]
           | piece :: pieces => String x piece :: pieces
           end
  end.

(** [c.join(l)] for a one-character [c]. *)
Fixpoint join (c : ascii) (l : list string) : string :=
  match l with
  | [] => EmptyString
  | [s] => s
  | s :: rest => s +:+ String c (join c rest)
  end.

(** [c in s] *)
Fixpoint contains (c : ascii) (s : string) : bool :=
  match s with
  | EmptyString => false
  | String x rest => Ascii.eqb x c || contains c rest
  end.

(** ASCII white space, as [bytes.strip()] understands it. *)
Definition is_space (c : ascii) : bool :=
  let n := nat_of_ascii c in
  Nat.eqb n 32 || (Nat.leb 9 n && Nat.leb n 13).

Fixpoint lstrip (s : string) : string :=
  match s with
  | EmptyString => EmptyString
  | String c rest => if is_space c then lstrip rest else s
  end.

Fixpoint rstrip (s : string) : string :=
  match s with
  | EmptyString => EmptyString
  | String c rest =>
      match rstrip rest with
      | EmptyString => if is_space c then EmptyString else String c EmptyString
      | kept => String c kept
      end
  end.

(** [s.strip()] *)
Definition strip (s : string) : string := rstrip (lstrip s).

(** [l.pop(-1)]: the list without its last element, and that element;
    [None] stands for the [IndexError] on an empty list. *)
Fixpoint pop_last (l : list string) : option (list string * string) :=
  match l with
  | [] => None
  | [x] => Some ([], x)
  | x :: rest =>
      match pop_last rest with
      | Some (init, z) => Some (x :: init, z)
      | None => None
      end
  end.

(** [template % arg] for a string [arg] and a template whose only
    conversion is one [%s]: the first [%s] is replaced by [arg]. *)
Fixpoint percent_s (template arg : string) : string :=
  match template with
  | EmptyString => EmptyString
  | String c rest =>
      if Ascii.eqb c "%" then
        match rest with
        | String d rest' =>
            if Ascii.eqb d "s" then arg +:+ rest'
            else String c (percent_s rest arg)
        | EmptyString => String c EmptyString
        end
      else String c (percent_s rest arg)
  end.

(** [x in s] for strings *)
Fixpoint infix (x s : string) : bool :=
  String.prefix x s ||
  match s with
  | EmptyString => false
  | String _ rest => infix x rest
  end.

End PyStr.

(** [posixpath.join(a, *p)]: a component that starts with [/] restarts
    the path, otherwise components are glued with one [/]. *)
Fixpoint posixpath_join (path : string) (p : list string) : string :=
  match p with
  | [] => path
  | b :: rest =>
      let path' :=
        if PyStr.startswith "/" b then b
        else if String.eqb path "" || PyStr.endswith_char "/" path
             then path +:+ b
             else path +:+ "/" +:+ b in
      posixpath_join path' rest
  end.

(** ** Exceptions and effects *)

(** A raised Python exception.  [exc_is_Exception] is
    [isinstance(e, Exception)]: it is false for [KeyboardInterrupt],
    [SystemExit] and [GeneratorExit], which derive from [BaseException]
    only. *)
Record PyExc := mkExc {
  exc_type : string;
  exc_message : string;
  exc_is_Exception : bool;
}.

(** [Exception(msg)] *)
Definition Exception (msg : string) : PyExc := mkExc "Exception" msg true.

Definition IndexError (msg : string) : PyExc := mkExc "IndexError" msg true.

(** What the script does to the outside world, in order. *)
Inductive Event :=
| EvPrint (text : string)
| EvIsFile (path : string)
| EvIsDir (path : string)
| EvCheckOutput (cmd : list string)
| EvCheckCall (cmd : list string)
| EvBuildV8 (target : option string)
| EvReinitializeCommand (command : string) (target : string)
| EvCopyFile (src dest : string)
| EvPrintExc (e : PyExc).

Inductive Outcome (A : Type) :=
| Returned (a : A)
| Raised (e : PyExc).
Arguments Returned {A} a.
Arguments Raised {A} e.

(** A computation: the events it performed and how it ended. *)
Definition M (A : Type) : Type := list Event * Outcome A.

Definition ret {A} (a : A) : M A := ([], Returned a).
Definition raise {A} (e : PyExc) : M A := ([], Raised e).
Definition emit (ev : Event) : M unit := ([ev], Returned tt).

Definition bind {A B} (m : M A) (k : A -> M B) : M B :=
  match m with
  | (t, Returned a) => let '(t', r) := k a in (t ++ t', r)
  | (t, Raised e) => (t, Raised e)
  end.

(** [try: body except Exception as e: handler(e)] *)
Definition try_except_Exception {A} (body : M A) (handler : PyExc -> M A) : M A :=
  match body with
  | (t, Raised e) =>
      if exc_is_Exception e
      then let '(t', r) := handler e in (t ++ t', r)
      else (t, Raised e)
  | done => done
  end.

Declare Scope py_scope.
Delimit Scope py_scope with py.
Notation "x <- m ;; k" := (bind m (fun x => k))
  (at level 100, m at next level, right associativity) : py_scope.
Notation "m ;;; k" := (bind m (fun _ => k))
  (at level 100, right associativity) : py_scope.

Definition trace {A} (m : M A) : list Event := fst m.
Definition outcome {A} (m : M A) : Outcome A := snd m.

(** ** The environment the script runs in *)

Record Env := {
  os_name : string;                       (* os.name *)
  sys_platform : string;                  (* sys.platform *)
  os_path_join : string -> list string -> string;   (* os.path.join(a, *p) *)
  os_path_abspath : string -> string;
  dirname_file : string;                  (* dirname(__file__) *)
  local_path_v8 : string -> string;       (* py_mini_racer.extension.v8_build.local_path *)
  os_path_isfile : string -> bool;
  os_path_isdir : string -> bool;
  run_check_output : list string -> PyExc + string;
  run_check_call : list string -> option PyExc;
  run_build_v8 : option string -> option PyExc;   (* v8_build.build_v8 *)
  run_reinitialize_command : string -> string -> option PyExc;
  run_copy_file : string -> string -> option PyExc;
  bytes_decode : string -> PyExc + string;
  build_lib : string;                     (* self.build_lib *)
  repr : PyExc -> string;                 (* repr(e) *)
}.

(** ** The functions of [setup.py] *)

Section Setup.

Variable env : Env.

Local Open Scope py_scope.

(** [os.path.join] applied to an unpacked list; with no argument it is
    a [TypeError]. *)
Definition os_path_join_star (l : list string) : M string :=
  match l with
  | [] => raise (mkExc "TypeError" "join() missing 1 required positional argument" true)
  | a :: p => ret (os_path_join env a p)
  end.

Definition isfile (path : string) : M bool :=
  emit (EvIsFile path) ;;; ret (os_path_isfile env path).

Definition isdir (path : string) : M bool :=
  emit (EvIsDir path) ;;; ret (os_path_isdir env path).

Definition print (text : string) : M unit := emit (EvPrint text).

Definition lift_call (ev : Event) (r : option PyExc) : M unit :=
  emit ev ;;; match r with Some e => raise e | None => ret tt end.

Definition check_output (cmd : list string) : M string :=
  emit (EvCheckOutput cmd) ;;;
  match run_check_output env cmd with
  | inl e => raise e
  | inr out => ret out
  end.

Definition check_call (cmd : list string) : M unit :=
  lift_call (EvCheckCall cmd) (run_check_call env cmd).

Definition build_v8 (target : option string) : M unit :=
  lift_call (EvBuildV8 target) (run_build_v8 env target).

Definition copy_file (src dest : string) : M unit :=
  lift_call (EvCopyFile src dest) (run_copy_file env src dest).

Definition decode (b : string) : M string :=
  match bytes_decode env b with
  | inl e => raise e
  | inr s => ret s
  end.

(** [local_path] *)
Definition local_path (path : string) : string :=
  let current_path := dirname_file env in
  os_path_abspath env (os_path_join env current_path [path]).

(** [check_python_version] *)
Definition check_python_version : M bool :=
  output <- check_output ["python"; "--version"] ;;
  text <- decode (PyStr.strip output) ;;
  ret (PyStr.startswith "Python 2.7" text).

(** [is_depot_tools_checkout] *)
Definition is_depot_tools_checkout : M bool :=
  isdir (local_path "vendor/depot_tools").

(** [all([f(x) for x in l])]: the list is built first, every element
    is evaluated. *)
Fixpoint list_comprehension {A B} (f : A -> M B) (l : list A) : M (list B) :=
  match l with
  | [] => ret []
  | x :: rest =>
      y <- f x ;;
      ys <- list_comprehension f rest ;;
      ret (y :: ys)
  end.

(** The file whose presence marks a finished V8 build:
    [local_path_v8(os.path.join("out", "obj", "v8", f))]. *)
Definition v8_object_path (f : string) : string :=
  local_path_v8 env (os_path_join env "out" ["obj"; "v8"; f]).

(** [is_v8_built] *)
Definition is_v8_built : M bool :=
  let files := ["libv8_base.a"] in
  found <- list_comprehension (fun f => isfile (v8_object_path f)) files ;;
  ret (forallb id found).

(** [MiniRacerBuildExt.get_filename] *)
Definition get_filename : string :=
  let '(prefix, ext) :=
    if String.eqb (os_name env) "posix" && String.eqb (sys_platform env) "darwin"
    then ("lib", ".dylib")
    else if String.eqb (sys_platform env) "win32"
         then ("", ".dll")
         else ("lib", ".so") in
  prefix +:+ "mini_racer" +:+ ext.

(** [MiniRacerBuildExt.get_ext_filename] *)
Definition get_ext_filename (name : string) : M string :=
  let ext := ".so" in
  let parts := PyStr.split "." name in
  match PyStr.pop_last parts with
  | None => raise (IndexError "pop from empty list")
  | Some (parts, popped) =>
      let last := popped +:+ ext in
      os_path_join_star (parts ++ [last])
  end.

(** [MiniRacerBuildV8.run]; [target] is [self.target], [None] by
    default. *)
Definition python27_msg : string :=
  "py_mini_racer cannot build V8 in the current configuration.
            The V8 build system requires the python executable to be Python 2.7.
            See also: https://github.com/sqreen/PyMiniRacer#build".

(** [self.target or "v8"] *)
Definition target_or_v8 (target : option string) : string :=
  match target with
  | None => "v8"
  | Some t => if String.eqb t "" then "v8" else t
  end.

Definition target_is_default (target : option string) : bool :=
  match target with
  | None => true
  | Some t => String.eqb t "v8"
  end.

Definition depot_tools_clone : list string :=
  ["git"; "clone";
   "https://chromium.googlesource.com/chromium/tools/depot_tools.git";
   "vendor/depot_tools"].

Definition MiniRacerBuildV8_run (target : option string) : M unit :=
  already <- (if target_is_default target then is_v8_built else ret false) ;;
  if (already : bool) then
    print "v8 was already built"
  else
    py27 <- check_python_version ;;
    (if negb py27 then raise (Exception python27_msg) else ret tt) ;;;
    checkout <- is_depot_tools_checkout ;;
    (if negb checkout then
       print "cloning depot tools submodule" ;;;
       check_call depot_tools_clone
     else ret tt) ;;;
    print ("building " +:+ target_or_v8 target) ;;;
    build_v8 target.

(** [self.reinitialize_command("build_v8", target=...)] followed by
    [self.run_command("build_v8")]: the command class registered under
    that name is [MiniRacerBuildV8], and a reinitialized command runs
    again. *)
Definition reinitialize_command (command target : string) : M unit :=
  lift_call (EvReinitializeCommand command target)
            (run_reinitialize_command env command target).

Definition run_command_build_v8 (target : string) : M unit :=
  MiniRacerBuildV8_run (Some target).

Definition err_msg : string :=
  "py_mini_racer failed to build, ensure you have an up-to-date pip (>= 8.1) to use the wheel instead
            To update pip: 'pip install -U pip'
            See also: https://github.com/sqreen/PyMiniRacer#binary-builds-availability

            Original error: %s".

(** [traceback.print_exc()] in the handler of [e] *)
Definition print_exc (e : PyExc) : M unit := emit (EvPrintExc e).

(** The body of the [try] of [build_extensions]; setting [self.debug]
    has no effect the script can observe. *)
Definition build_extensions_body : M unit :=
  let src := os_path_join env (local_path_v8 env "out") [get_filename] in
  ext_filename <- get_ext_filename "_v8" ;;
  let dest := os_path_join env (build_lib env) [ext_filename] in
  found <- isfile src ;;
  (if negb found then
     reinitialize_command "build_v8" "py_mini_racer_shared_lib" ;;;
     run_command_build_v8 "py_mini_racer_shared_lib"
   else ret tt) ;;;
  copy_file src dest.

(** [MiniRacerBuildExt.build_extensions] *)
Definition build_extensions : M unit :=
  try_except_Exception build_extensions_body
    (fun e =>
       print_exc e ;;;
       raise (Exception (PyStr.percent_s err_msg (repr env e)))).

End Setup.

(** ** Names and environments used in the statements *)

Definition python_version_cmd : list string := ["python"; "--version"].

(** Where the library is looked for and where it is copied to. *)
Definition build_src (env : Env) : string :=
  os_path_join env (local_path_v8 env "out") [get_filename env].

(** The text of [err_msg] before its [%s]. *)
Definition pip_guidance : string :=
  "py_mini_racer failed to build, ensure you have an up-to-date pip (>= 8.1) to use the wheel instead
            To update pip: 'pip install -U pip'
            See also: https://github.com/sqreen/PyMiniRacer#binary-builds-availability

            Original error: ".

(** Some environments to evaluate the script in.  Their path functions
    are the posix ones; only [os.name] and [sys.platform] differ, which
    is all that [get_filename] reads. *)
Definition posix_env (name platform : string) : Env :=
  {| os_name := name;
     sys_platform := platform;
     os_path_join := posixpath_join;
     os_path_abspath := fun p => posixpath_join "/src/PyMiniRacer" [p];
     dirname_file := "";
     local_path_v8 := fun p => posixpath_join "/src/PyMiniRacer/py_mini_racer/extension" [p];
     os_path_isfile := fun _ => false;
     os_path_isdir := fun _ => false;
     run_check_output := fun _ => inr "Python 3.7.4
";
     run_check_call := fun _ => None;
     run_build_v8 := fun _ => None;
     run_reinitialize_command := fun _ _ => None;
     run_copy_file := fun _ _ => None;
     bytes_decode := inr;
     build_lib := "build/lib";
     repr := fun e => exc_type e +:+ "('" +:+ exc_message e +:+ "',)" |}.

Definition linux_env : Env := posix_env "posix" "linux2".
Definition darwin_env : Env := posix_env "posix" "darwin".
Definition win32_env : Env := posix_env "nt" "win32".

Definition built_env : Env :=
  {| os_name := "posix"; sys_platform := "linux2";
     os_path_join := posixpath_join; os_path_abspath := id; dirname_file := "";
     local_path_v8 := id;
     os_path_isfile := String.eqb "out/obj/v8/libv8_base.a";
     os_path_isdir := fun _ => false;
     run_check_output := fun _ => inr "Python 3.7.4";
     run_check_call := fun _ => None; run_build_v8 := fun _ => None;
     run_reinitialize_command := fun _ _ => None;
     run_copy_file := fun _ _ => None;
     bytes_decode := inr; build_lib := "build"; repr := exc_message |}.

(** ** The module-level code of [setup.py] *)

Module PyText.

(** [s[n:]] *)
Fixpoint drop (n : nat) (s : string) : string :=
  match n, s with
  | S k, String _ rest => drop k rest
  | _, _ => s
  end.

(** The loop of [s.replace(old, new)] for a non-empty [old]: occurrences
    are replaced from left to right and do not overlap; [skip] counts the
    characters of the occurrence just replaced that are still to be
    passed over. *)
Fixpoint replace_from (old new : string) (skip : nat) (s : string) : string :=
  match s with
  | EmptyString => EmptyString
  | String c rest =>
      match skip with
      | S k => replace_from old new k rest
      | 0 =>
          if String.prefix old s
          then new +:+ replace_from old new (String.length old - 1) rest
          else String c (replace_from old new 0 rest)
      end
  end.

(** [s.replace(old, new)], [old] not empty *)
Definition replace (old new s : string) : string := replace_from old new 0 s.

(** [a >= b] on lists of integers: the first position where they differ
    decides, and a list that is a prefix of the other is the smaller. *)
Fixpoint list_ge (a b : list Z) : bool :=
  match a, b with
  | _, [] => true
  | [], _ :: _ => false
  | x :: a', y :: b' => if Z.eqb x y then list_ge a' b' else Z.ltb y x
  end.

(** [str(x)] for [x] an object with the given string form, or [None] *)
Definition str_or_None (x : option string) : string :=
  match x with
  | Some s => s
  | None => "None"
  end.

End PyText.

(** [readme], as read from [README.rst] and rewritten for the package
    index, and [history], from [HISTORY.rst]. *)
Definition local_image_link : string := ".. image:: data/".
Definition github_image_link : string :=
  ".. image:: https://github.com/sqreen/PyMiniRacer/raw/master/data/".

Definition readme_of (readme_file : string) : string :=
  PyText.replace local_image_link github_image_link readme_file.

Definition history_of (history_file : string) : string :=
  PyText.replace ".. :changelog:" "" history_file.

(** ** [_parse_requirements] *)

(** What [_parse_requirements] asks of [pkg_resources] and [pip]. *)
Inductive PipEvent :=
| PipGetDistribution (name : string)
| PipImport (module name : string)
| PipSession (module : string)
| PipParseRequirements (module : string) (filepath : string) (with_session : bool).

(** A parsed requirement; [req] is [None] for a line that names no
    project. *)
Record InstallRequirement := { req : option string }.

Record PipEnv := {
  pip_distribution_version : PyExc + string;  (* get_distribution('pip').version *)
  py_int : string -> PyExc + Z;               (* int(s) *)
  pip_import : string -> string -> option PyExc;
  pip_new_session : string -> option PyExc;   (* PipSession() *)
  pip_parse_requirements :
    string -> string -> bool -> PyExc + list InstallRequirement;
}.

Definition P (A : Type) : Type := list PipEvent * Outcome A.

Definition pret {A} (a : A) : P A := ([], Returned a).

Definition pbind {A B} (m : P A) (k : A -> P B) : P B :=
  match m with
  | (t, Returned a) => let '(t', r) := k a in (t ++ t', r)
  | (t, Raised e) => (t, Raised e)
  end.

Declare Scope pip_scope.
Delimit Scope pip_scope with pip.
Notation "x <- m ;; k" := (pbind m (fun x => k))
  (at level 100, m at next level, right associativity) : pip_scope.
Notation "m ;;; k" := (pbind m (fun _ => k))
  (at level 100, right associativity) : pip_scope.

Section Requirements.

Variable penv : PipEnv.

Local Open Scope pip_scope.

Definition pip_call {A} (ev : PipEvent) (r : PyExc + A) : P A :=
  ([ev], match r with inl e => Raised e | inr a => Returned a end).

Definition pip_do (ev : PipEvent) (r : option PyExc) : P unit :=
  ([ev], match r with Some e => Raised e | None => Returned tt end).

(** [from module import name] *)
Definition import_from (module name : string) : P unit :=
  pip_do (PipImport module name) (pip_import penv module name).

(** [list(map(int, l))] *)
Fixpoint map_int (l : list string) : P (list Z) :=
  match l with
  | [] => pret []
  | s :: rest =>
      match py_int penv s with
      | inl e => ([], Raised e)
      | inr z => zs <- map_int rest ;; pret (z :: zs)
      end
  end.

(** [parse_requirements(filepath, session=PipSession())] with the two
    names imported from [session_module] and [req_module]. *)
Definition parse_with_session (session_module req_module filepath : string)
  : P (list InstallRequirement) :=
  import_from session_module "PipSession" ;;;
  import_from req_module "parse_requirements" ;;;
  pip_do (PipSession session_module) (pip_new_session penv session_module) ;;;
  pip_call (PipParseRequirements req_module filepath true)
           (pip_parse_requirements penv req_module filepath true).

(** [_parse_requirements] *)
Definition _parse_requirements (filepath : string) : P (list string) :=
  version <- pip_call (PipGetDistribution "pip") (pip_distribution_version penv) ;;
  pip_version <- map_int (firstn 2 (PyStr.split "." version)) ;;
  raw <- (if PyText.list_ge pip_version [10; 0]%Z then
            parse_with_session "pip._internal.download" "pip._internal.req" filepath
          else if PyText.list_ge pip_version [6; 0]%Z then
            parse_with_session "pip.download" "pip.req" filepath
          else
            import_from "pip.req" "parse_requirements" ;;;
            pip_call (PipParseRequirements "pip.req" filepath false)
                     (pip_parse_requirements penv "pip.req" filepath false)) ;;
  pret (map (fun i => PyText.str_or_None (req i)) raw).

End Requirements.

(** A pip to try the function on: decimal version numbers, every module
    present, and a requirements file with two lines. *)
Fixpoint decimal (acc : Z) (s : string) : option Z :=
  match s with
  | EmptyString => Some acc
  | String c rest =>
      let n := nat_of_ascii c in
      if Nat.leb 48 n && Nat.leb n 57
      then decimal (10 * acc + Z.of_nat (n - 48)) rest
      else None
  end.

Definition example_pip (version : string) : PipEnv :=
  {| pip_distribution_version := inr version;
     py_int := fun s =>
       match s, decimal 0 s with
       | String _ _, Some z => inr z
       | _, _ => inl (mkExc "ValueError" "invalid literal for int() with base 10" true)
       end;
     pip_import := fun _ _ => None;
     pip_new_session := fun _ => None;
     pip_parse_requirements := fun _ _ _ =>
       inr [ {| req := Some "six" |}; {| req := None |} ] |}.

(** What [_parse_requirements] does once it has settled on a way to
    load the file: the version lookup, the loading, and the names of the
    requirements as strings. *)
Definition requirements_loaded_by (loader : P (list InstallRequirement)) : P (list string) :=
  pbind ([PipGetDistribution "pip"], Returned tt)
        (fun _ => pbind loader
                    (fun raw => pret (map (fun i => PyText.str_or_None (req i)) raw))).

Definition load_without_session (penv : PipEnv) (filepath : string)
  : P (list InstallRequirement) :=
  pbind (import_from penv "pip.req" "parse_requirements")
        (fun _ => pip_call (PipParseRequirements "pip.req" filepath false)
                    (pip_parse_requirements penv "pip.req" filepath false)).

(** [clash a b]: [a] and [b] differ at a position both have, so neither
    starts the other. *)
Fixpoint clash (a b : string) : bool :=
  match a, b with
  | String x a', String y b' => negb (Ascii.eqb x y) || clash a' b'
  | _, _ => false
  end.

(** Every non-empty end of [a] clashes with [b]. *)
Fixpoint ends_clash (a b : string) : bool :=
  match a with
  | EmptyString => true
  | String _ a' => clash a b && ends_clash a' b
  end.

(** [old] clashes with every non-empty end of [t]. *)
Fixpoint clashes_with_ends (old t : string) : bool :=
  match t with
  | EmptyString => true
  | String _ t' => clash old t && clashes_with_ends old t'
  end.

(** Where [build_extensions] copies the library to:
    [os.path.join(self.build_lib, self.get_ext_filename("_v8"))]. *)
Definition build_dest (env : Env) : string :=
  os_path_join env (build_lib env) [os_path_join env "_v8.so" []].

(** How a call of [build_v8(target)] ends. *)
Definition build_v8_outcome (env : Env) (target : option string) : Outcome unit :=
  match run_build_v8 env target with
  | Some e => Raised e
  | None => Returned tt
  end.

(** The probe [run] starts with when its target is the default one. *)
Definition built_probe (env : Env) (target : option string) : list Event :=
  if target_is_default target then [EvIsFile (v8_object_path env "libv8_base.a")] else [].

(** A posix system whose [python --version] prints [out]. *)
Definition python_env (out : string) : Env :=
  {| os_name := "posix";
     sys_platform := "linux2";
     os_path_join := posixpath_join;
     os_path_abspath := fun p => posixpath_join "/src/PyMiniRacer" [p];
     dirname_file := "";
     local_path_v8 := fun p => posixpath_join "/src/PyMiniRacer/py_mini_racer/extension" [p];
     os_path_isfile := fun _ => false;
     os_path_isdir := fun _ => false;
     run_check_output := fun _ => inr out;
     run_check_call := fun _ => None;
     run_build_v8 := fun _ => None;
     run_reinitialize_command := fun _ _ => None;
     run_copy_file := fun _ _ => None;
     bytes_decode := inr;
     build_lib := "build/lib";
     repr := fun e => exc_type e +:+ "('" +:+ exc_message e +:+ "',)" |}.

(** A posix system on which the engine library has been built. *)
Definition built_lib_env : Env :=
  {| os_name := "posix";
     sys_platform := "linux2";
     os_path_join := posixpath_join;
     os_path_abspath := id;
     dirname_file := "";
     local_path_v8 := fun p => posixpath_join "/v8" [p];
     os_path_isfile := String.eqb "/v8/out/libmini_racer.so";
     os_path_isdir := fun _ => false;
     run_check_output := fun _ => inr "Python 3.7.4";
     run_check_call := fun _ => None;
     run_build_v8 := fun _ => None;
     run_reinitialize_command := fun _ _ => None;
     run_copy_file := fun _ _ => None;
     bytes_decode := inr;
     build_lib := "build/lib";
     repr := exc_message |}.

(** [KeyboardInterrupt()]: it derives from [BaseException] only. *)
Definition KeyboardInterrupt : PyExc := mkExc "KeyboardInterrupt" "" false.

(** A posix system with python 2.7 and no engine library yet, on which
    the V8 build is interrupted from the keyboard. *)
Definition interrupted_env : Env :=
  {| os_name := "posix";
     sys_platform := "linux2";
     os_path_join := posixpath_join;
     os_path_abspath := fun p => posixpath_join "/src/PyMiniRacer" [p];
     dirname_file := "";
     local_path_v8 := fun p => posixpath_join "/src/PyMiniRacer/py_mini_racer/extension" [p];
     os_path_isfile := fun _ => false;
     os_path_isdir := fun _ => true;
     run_check_output := fun _ => inr "Python 2.7.18
";
     run_check_call := fun _ => None;
     run_build_v8 := fun _ => Some KeyboardInterrupt;
     run_reinitialize_command := fun _ _ => None;
     run_copy_file := fun _ _ => None;
     bytes_decode := inr;
     build_lib := "build/lib";
     repr := fun e => exc_type e +:+ "('" +:+ exc_message e +:+ "',)" |}.

Definition interrupted_trace : list Event :=
  [EvIsFile "/src/PyMiniRacer/py_mini_racer/extension/out/libmini_racer.so";
   EvReinitializeCommand "build_v8" "py_mini_racer_shared_lib";
   EvCheckOutput ["python"; "--version"];
   EvIsDir "/src/PyMiniRacer/vendor/depot_tools";
   EvPrint "building py_mini_racer_shared_lib";
   EvBuildV8 (Some "py_mini_racer_shared_lib")].

(** * The embedding core

    The script above only builds and packages the engine; the layer that
    runs it (contexts, the value bridge, supervision of executions) is
    part of the package [py_mini_racer], whose sources are built by this
    script.  The definitions of this module follow the specification's
    description of that layer. *)

Module Core.

(** Modelled from the spec: the error taxonomy of section 7 (the
    supervisor and the bridge that raise these errors are missing). *)
Inductive ErrorKind :=
| ParseError
| ScriptError
| TimeoutError
| MemoryLimitError
| ContextDisposedError
| EncodingError
| BusyError.

(** Modelled from the spec: a structured error, "kind + message +
    optional stack" (section 3; its producer is missing). *)
Record StructuredError := mkError {
  err_kind : ErrorKind;
  err_message : string;
  err_stack : option string;
}.

Definition ContextId := nat.
Definition ObjId := nat.

(** Modelled from the spec: the TaggedValue union of section 3 (the
    value bridge that produces it is missing).  A function is an opaque
    handle bound to its owning context. *)
#[warnings="-register-all"]
Inductive TaggedValue :=
| Null
| Undefined
| Boolean (b : bool)
| Integer (z : Z)
| Double (d : float)
| String (s : string)
| Array (items : list TaggedValue)
| Object (fields : list (string * TaggedValue))
| Function (owner : ContextId) (ref : ObjId)
| Date (timestamp : Z)
| Error (kind : ErrorKind) (message : string) (stack : option string).

(** Modelled from the spec: ExecutionResult, "either a TaggedValue on
    success or a structured error on failure" (section 3). *)
Inductive ExecutionResult :=
| Success (v : TaggedValue)
| Failure (e : StructuredError).

(** ** Engine values *)

(** Modelled from the spec: strings in the engine's native encoding
    (section 4.1), as code units. *)
Definition EngineString := list N.

(** Modelled from the spec: the engine-native values of section 2
    (numbers, strings, booleans, null/undefined, arrays, objects,
    functions, errors; the engine itself is missing).  Arrays, objects,
    functions, dates and errors live in the isolate's heap and are
    referred to by identity. *)
Inductive EngineValue :=
| ENull
| EUndefined
| EBoolean (b : bool)
| EInteger (z : Z)
| ENumber (d : float)
| EString (s : EngineString)
| EReference (id : ObjId).

Inductive EngineObject :=
| EArray (elems : list EngineValue)
| EObject (props : list (EngineString * EngineValue))
| EFunction
| EDate (timestamp : Z)
| EError (message : EngineString) (stack : option EngineString).

(** Modelled from the spec: an engine isolate, "an independent
    execution heap/environment" (glossary), with its global object. *)
Record Isolate := mkIsolate {
  iso_heap : gmap ObjId EngineObject;
  iso_globals : gmap string EngineValue;
}.

Definition fresh_isolate : Isolate := mkIsolate ∅ ∅.

(** ** The value bridge, engine to host *)

(** Modelled from the spec: the bridge's settings, the depth bound
    "configurable, default e.g. 100" and the transcoding of strings from
    and to the engine's encoding, which fails on invalid sequences
    (section 4.1). *)
Record BridgeConfig := mkBridge {
  max_depth : nat;
  transcode : EngineString -> option string;
  encode : string -> option EngineString;
}.

Definition default_max_depth : nat := 100.

(** Modelled from the spec: the bridge as it is configured by default,
    with the depth bound of section 4.1. *)
Definition default_bridge (transcode : EngineString -> option string)
    (encode : string -> option EngineString) : BridgeConfig :=
  mkBridge default_max_depth transcode encode.

Definition encoding_error (message : string) : ExecutionResult :=
  Failure (mkError EncodingError message None).

(** Modelled from the spec: array and object conversion (section 4.1),
    element by element in order; the first failure is the result. *)
Fixpoint convert_items (conv : EngineValue -> ExecutionResult)
    (elems : list EngineValue) : StructuredError + list TaggedValue :=
  match elems with
  | [] => inr []
  | v :: rest =>
      match conv v with
      | Failure e => inl e
      | Success t =>
          match convert_items conv rest with
          | inl e => inl e
          | inr ts => inr (t :: ts)
          end
      end
  end.

Fixpoint convert_fields (cfg : BridgeConfig) (conv : EngineValue -> ExecutionResult)
    (props : list (EngineString * EngineValue))
  : StructuredError + list (string * TaggedValue) :=
  match props with
  | [] => inr []
  | (k, v) :: rest =>
      match transcode cfg k with
      | None => inl (mkError EncodingError "invalid sequence in a property name" None)
      | Some key =>
          match conv v with
          | Failure e => inl e
          | Success t =>
              match convert_fields cfg conv rest with
              | inl e => inl e
              | inr fs => inr ((key, t) :: fs)
              end
          end
      end
  end.

Definition transcode_stack (cfg : BridgeConfig) (stack : option EngineString)
  : option (option string) :=
  match stack with
  | None => Some None
  | Some s => match transcode cfg s with Some text => Some (Some text) | None => None end
  end.

(** Modelled from the spec: [fromEngine] of section 4.1 (the bridge is
    missing).  [depth] is how many more levels of arrays and objects may
    be entered, [visited] holds the identities of the arrays and objects
    being converted around the current value. *)
Fixpoint convert (cfg : BridgeConfig) (owner : ContextId) (heap : gmap ObjId EngineObject)
    (depth : nat) (visited : gset ObjId) (v : EngineValue) : ExecutionResult :=
  match v with
  | ENull => Success Null
  | EUndefined => Success Undefined
  | EBoolean b => Success (Boolean b)
  | EInteger z => Success (Integer z)
  | ENumber d => Success (Double d)
  | EString s =>
      match transcode cfg s with
      | Some text => Success (String text)
      | None => encoding_error "invalid sequence in a string"
      end
  | EReference id =>
      match heap !! id with
      | None => encoding_error "reference to a freed object"
      | Some EFunction => Success (Function owner id)
      | Some (EDate ts) => Success (Date ts)
      | Some (EError message stack) =>
          match transcode cfg message, transcode_stack cfg stack with
          | Some text, Some trace => Success (Error ScriptError text trace)
          | _, _ => encoding_error "invalid sequence in an error"
          end
      | Some (EArray elems) =>
          match depth with
          | 0 => encoding_error "maximum depth exceeded"
          | S depth' =>
              if decide (id ∈ visited) then encoding_error "cyclic structure"
              else match convert_items (convert cfg owner heap depth' ({[id]} ∪ visited)) elems with
                   | inl e => Failure e
                   | inr items => Success (Array items)
                   end
          end
      | Some (EObject props) =>
          match depth with
          | 0 => encoding_error "maximum depth exceeded"
          | S depth' =>
              if decide (id ∈ visited) then encoding_error "cyclic structure"
              else match convert_fields cfg (convert cfg owner heap depth' ({[id]} ∪ visited)) props with
                   | inl e => Failure e
                   | inr fields => Success (Object fields)
                   end
          end
      end
  end.

Definition fromEngine (cfg : BridgeConfig) (owner : ContextId)
    (heap : gmap ObjId EngineObject) (v : EngineValue) : ExecutionResult :=
  convert cfg owner heap (max_depth cfg) ∅ v.

(** ** The value bridge, host to engine *)

(** Modelled from the spec: a new object of the isolate's heap, under
    an identity not in use. *)
Definition allocate (heap : gmap ObjId EngineObject) (o : EngineObject)
  : EngineValue * gmap ObjId EngineObject :=
  let id := fresh (dom heap) in
  (EReference id, <[id := o]> heap).

Definition encode_stack (cfg : BridgeConfig) (stack : option string)
  : option (option EngineString) :=
  match stack with
  | None => Some None
  | Some s => match encode cfg s with Some u => Some (Some u) | None => None end
  end.

(** Modelled from the spec: array and object conversion (section 4.1),
    item by item in order, each into the heap the previous one left. *)
Fixpoint items_to_engine
    (conv : gmap ObjId EngineObject -> TaggedValue ->
            StructuredError + EngineValue * gmap ObjId EngineObject)
    (heap : gmap ObjId EngineObject) (items : list TaggedValue)
  : StructuredError + list EngineValue * gmap ObjId EngineObject :=
  match items with
  | [] => inr ([], heap)
  | t :: rest =>
      match conv heap t with
      | inl e => inl e
      | inr (v, heap') =>
          match items_to_engine conv heap' rest with
          | inl e => inl e
          | inr (vs, heap'') => inr (v :: vs, heap'')
          end
      end
  end.

Fixpoint fields_to_engine (cfg : BridgeConfig)
    (conv : gmap ObjId EngineObject -> TaggedValue ->
            StructuredError + EngineValue * gmap ObjId EngineObject)
    (heap : gmap ObjId EngineObject) (fields : list (string * TaggedValue))
  : StructuredError + list (EngineString * EngineValue) * gmap ObjId EngineObject :=
  match fields with
  | [] => inr ([], heap)
  | (key, t) :: rest =>
      match encode cfg key with
      | None => inl (mkError EncodingError "invalid sequence in a property name" None)
      | Some k =>
          match conv heap t with
          | inl e => inl e
          | inr (v, heap') =>
              match fields_to_engine cfg conv heap' rest with
              | inl e => inl e
              | inr (props, heap'') => inr ((k, v) :: props, heap'')
              end
          end
      end
  end.

(** Modelled from the spec: [toEngine] of section 4.1 (the bridge is
    missing), into the heap of the context [owner]; [depth] is how many
    more levels of arrays and objects may be entered. *)
Fixpoint to_engine (cfg : BridgeConfig) (owner : ContextId) (depth : nat)
    (heap : gmap ObjId EngineObject) (t : TaggedValue)
  : StructuredError + EngineValue * gmap ObjId EngineObject :=
  match t with
  | Null => inr (ENull, heap)
  | Undefined => inr (EUndefined, heap)
  | Boolean b => inr (EBoolean b, heap)
  | Integer z => inr (EInteger z, heap)
  | Double d => inr (ENumber d, heap)
  | String s =>
      match encode cfg s with
      | Some u => inr (EString u, heap)
      | None => inl (mkError EncodingError "invalid sequence in a string" None)
      end
  | Function o ref =>
      if decide (o = owner) then inr (EReference ref, heap)
      else inl (mkError EncodingError "function of another context" None)
  | Date ts => inr (allocate heap (EDate ts))
  | Error _ message stack =>
      match encode cfg message, encode_stack cfg stack with
      | Some m, Some st => inr (allocate heap (EError m st))
      | _, _ => inl (mkError EncodingError "invalid sequence in an error" None)
      end
  | Array items =>
      match depth with
      | 0 => inl (mkError EncodingError "maximum depth exceeded" None)
      | S depth' =>
          match items_to_engine (to_engine cfg owner depth') heap items with
          | inl e => inl e
          | inr (elems, heap') => inr (allocate heap' (EArray elems))
          end
      end
  | Object fields =>
      match depth with
      | 0 => inl (mkError EncodingError "maximum depth exceeded" None)
      | S depth' =>
          match fields_to_engine cfg (to_engine cfg owner depth') heap fields with
          | inl e => inl e
          | inr (props, heap') => inr (allocate heap' (EObject props))
          end
      end
  end.

Definition toEngine (cfg : BridgeConfig) (owner : ContextId)
    (heap : gmap ObjId EngineObject) (t : TaggedValue)
  : StructuredError + EngineValue * gmap ObjId EngineObject :=
  to_engine cfg owner (max_depth cfg) heap t.

(** The tagged values directly inside an array or an object. *)
Definition items_of (t : TaggedValue) : list TaggedValue :=
  match t with
  | Array items => items
  | Object fields => map snd fields
  | _ => []
  end.

(** [tagged_nested n t]: from [t] one can go [n] levels down through
    arrays and objects. *)
Inductive tagged_nested : nat -> TaggedValue -> Prop :=
| tagged_nested_here t : tagged_nested 0 t
| tagged_nested_step n t u : In u (items_of t) -> tagged_nested n u -> tagged_nested (S n) t.

(** The values directly inside an array or an object. *)
Definition children (o : EngineObject) : list EngineValue :=
  match o with
  | EArray elems => elems
  | EObject props => map snd props
  | _ => []
  end.

(** [inside heap v w]: [v] is an array or object of the heap and [w] is
    one of its elements or property values. *)
Definition inside (heap : gmap ObjId EngineObject) (v w : EngineValue) : Prop :=
  exists id o, v = EReference id /\ heap !! id = Some o /\ In w (children o).

(** [nested heap n v]: from [v] one can go [n] levels down through
    arrays and objects. *)
Inductive nested (heap : gmap ObjId EngineObject) : nat -> EngineValue -> Prop :=
| nested_here v : nested heap 0 v
| nested_step n v w : inside heap v w -> nested heap n w -> nested heap (S n) v.

(** [v] holds a cycle: some array or object reachable from [v] contains
    itself, directly or through others. *)
Inductive reaches (heap : gmap ObjId EngineObject) : EngineValue -> EngineValue -> Prop :=
| reaches_refl v : reaches heap v v
| reaches_step v w u : inside heap v w -> reaches heap w u -> reaches heap v u.

Definition cyclic (heap : gmap ObjId EngineObject) (v : EngineValue) : Prop :=
  exists u w, reaches heap v u /\ inside heap u w /\ reaches heap w u.

(** Every reference held by an object of the heap is to an object of
    the heap. *)
Definition closed (heap : gmap ObjId EngineObject) : Prop :=
  forall id o id',
    heap !! id = Some o -> In (EReference id') (children o) -> is_Some (heap !! id').


(** ** Contexts and the supervision of executions *)

(** Modelled from the spec: the states of a context in the lifecycle
    manager's registry (section 4.4). *)
Inductive LifecycleState := Active | Disposing | Disposed.

(** Modelled from the spec: how a supervised engine call can end
    (section 4.3 and the causes listed in section 7): a value, malformed
    source, an uncaught exception, the deadline (with whether the soft
    interrupt stopped the engine cleanly), or memory exhaustion. *)
Inductive EngineOutcome :=
| Completed (v : EngineValue)
| SyntaxFault (message : string)
| Threw (message : string) (stack : option string)
| DeadlineExceeded (stopped_cleanly : bool)
| MemoryExhausted.

(** Modelled from the spec: the entry points of the compiled engine
    (section 6), opaque to the core: running a program or calling a
    function in an isolate, under a deadline, gives an outcome and the
    isolate after the call. *)
Record Engine := mkEngine {
  engine_evaluate : Isolate -> option N -> string -> EngineOutcome * Isolate;
  engine_call : Isolate -> option N -> ObjId -> list TaggedValue -> EngineOutcome * Isolate;
}.

(** Modelled from the spec: a Context (section 3): its id, memory
    ceiling, default timeout, state, and the isolate it owns until it is
    released. *)
Record Context := mkContext {
  ctx_id : ContextId;
  memoryLimitBytes : option N;
  defaultTimeoutMs : option N;
  ctx_state : LifecycleState;
  ctx_isolate : option Isolate;
}.

(** Modelled from the spec: [create(options)] (section 4.2): a context
    with a heap of its own. *)
Definition create (id : ContextId) (memory_limit default_timeout : option N) : Context :=
  mkContext id memory_limit default_timeout Active (Some fresh_isolate).

Definition with_isolate (c : Context) (iso : Isolate) : Context :=
  mkContext (ctx_id c) (memoryLimitBytes c) (defaultTimeoutMs c) (ctx_state c) (Some iso).

(** Modelled from the spec: releasing the isolate (sections 4.3, 4.4):
    the context is Disposed from then on. *)
Definition release (c : Context) : Context :=
  mkContext (ctx_id c) (memoryLimitBytes c) (defaultTimeoutMs c) Disposed None.

(** Modelled from the spec: "effective deadline = min(call-level
    timeout, Context default timeout, none)" (section 5). *)
Definition effective_deadline (call_timeout default_timeout : option N) : option N :=
  match call_timeout, default_timeout with
  | Some a, Some b => Some (N.min a b)
  | Some a, None => Some a
  | None, Some b => Some b
  | None, None => None
  end.

Definition failure (kind : ErrorKind) (message : string) (stack : option string)
  : ExecutionResult :=
  Failure (mkError kind message stack).

(** Modelled from the spec: the failure semantics of the execution
    supervisor (section 4.3): every way an engine call can end becomes a
    result, and the context survives or not as the section says. *)
Definition supervise (cfg : BridgeConfig) (c : Context)
    (ended : EngineOutcome * Isolate) : ExecutionResult * Context :=
  match ended with
  | (Completed v, iso) =>
      (fromEngine cfg (ctx_id c) (iso_heap iso) v, with_isolate c iso)
  | (SyntaxFault message, iso) =>
      (failure ParseError message None, with_isolate c iso)
  | (Threw message stack, iso) =>
      (failure ScriptError message stack, with_isolate c iso)
  | (DeadlineExceeded true, iso) =>
      (failure TimeoutError "deadline exceeded" None, with_isolate c iso)
  | (DeadlineExceeded false, _) =>
      (failure TimeoutError "deadline exceeded" None, release c)
  | (MemoryExhausted, _) =>
      (failure MemoryLimitError "memory limit reached" None, release c)
  end.

Definition disposed_result : ExecutionResult :=
  failure ContextDisposedError "the context is disposed" None.

(** Modelled from the spec: [evaluate] and [callFunction] of section
    4.2: an operation runs only on an Active context. *)
Definition evaluate (E : Engine) (cfg : BridgeConfig) (c : Context)
    (source : string) (timeoutMs : option N) : ExecutionResult * Context :=
  match ctx_state c, ctx_isolate c with
  | Active, Some iso =>
      supervise cfg c
        (engine_evaluate E iso (effective_deadline timeoutMs (defaultTimeoutMs c)) source)
  | _, _ => (disposed_result, c)
  end.

Definition callFunction (E : Engine) (cfg : BridgeConfig) (c : Context)
    (ref : ObjId) (args : list TaggedValue) (timeoutMs : option N)
  : ExecutionResult * Context :=
  match ctx_state c, ctx_isolate c with
  | Active, Some iso =>
      supervise cfg c
        (engine_call E iso (effective_deadline timeoutMs (defaultTimeoutMs c)) ref args)
  | _, _ => (disposed_result, c)
  end.

(** Modelled from the spec: invoking a function handle that crossed to
    the host is a call in its owning context (section 4.1). *)
Definition invoke (E : Engine) (cfg : BridgeConfig) (c : Context)
    (ref : ObjId) (args : list TaggedValue) : ExecutionResult * Context :=
  callFunction E cfg c ref args None.

(** Modelled from the spec: [dispose] (sections 4.2 and 4.4) in its two
    moments: the call marks the context Disposing and signals
    cancellation; once the execution slot is free the isolate is
    released. *)
Definition dispose_begin (c : Context) : Context :=
  match ctx_state c with
  | Active =>
      mkContext (ctx_id c) (memoryLimitBytes c) (defaultTimeoutMs c) Disposing (ctx_isolate c)
  | _ => c
  end.

Definition dispose_end (c : Context) : Context :=
  match ctx_state c with
  | Disposing => release c
  | _ => c
  end.

Definition dispose (c : Context) : Context := dispose_end (dispose_begin c).

(** Modelled from the spec: what callers ask of a context (section
    4.2). *)
Inductive Request :=
| ReqEvaluate (source : string) (timeoutMs : option N)
| ReqCallFunction (ref : ObjId) (args : list TaggedValue) (timeoutMs : option N)
| ReqInvoke (ref : ObjId) (args : list TaggedValue).

Definition perform (E : Engine) (cfg : BridgeConfig) (c : Context) (r : Request)
  : ExecutionResult * Context :=
  match r with
  | ReqEvaluate source timeoutMs => evaluate E cfg c source timeoutMs
  | ReqCallFunction ref args timeoutMs => callFunction E cfg c ref args timeoutMs
  | ReqInvoke ref args => invoke E cfg c ref args
  end.

(** Modelled from the spec: the engine call of an operation that holds
    the context's execution slot (section 4.3).  It was admitted while
    the context was Active; it runs on the isolate whatever the registry
    says by now, and what it leaves behind is the isolate, not the
    state. *)
Definition execute (E : Engine) (cfg : BridgeConfig) (c : Context) (r : Request)
  : ExecutionResult * Context :=
  match ctx_isolate c with
  | Some iso =>
      supervise cfg c
        match r with
        | ReqEvaluate source timeoutMs =>
            engine_evaluate E iso (effective_deadline timeoutMs (defaultTimeoutMs c)) source
        | ReqCallFunction ref args timeoutMs =>
            engine_call E iso (effective_deadline timeoutMs (defaultTimeoutMs c)) ref args
        | ReqInvoke ref args =>
            engine_call E iso (effective_deadline None (defaultTimeoutMs c)) ref args
        end
  | None => (disposed_result, c)
  end.

(** Modelled from the spec: a context in use by several threads
    (section 5): its registry entry, the call that holds its execution
    slot, the calls waiting for the slot in arrival order, and the
    ticket the next call gets.  Results are delivered with the ticket of
    their call. *)
Record Running := mkRunning {
  run_context : Context;
  run_slot : option (nat * Request);
  run_waiting : list (nat * Request);
  run_next : nat;
}.

Definition idle (c : Context) : Running := mkRunning c None [] 0.

(** Modelled from the spec: the registry is guarded by one mutex that
    does not cover execution (section 5), so what threads do to a
    context happens one step after another, and an execution takes two
    of them, with others in between: a thread calls an operation; the
    execution in the slot runs to its end; the execution in the slot
    stops at a safe point because cancellation was signalled; a thread
    calls [dispose]; a [dispose] that was called completes, which it
    does only when the slot is free (section 4.4). *)
Inductive Step :=
| Call (r : Request)
| Finish
| Cancelled
| DisposeCalled
| DisposeCompleted.

Definition reject_all (waiting : list (nat * Request)) : list (nat * ExecutionResult) :=
  map (fun w => (fst w, disposed_result)) waiting.

(** The slot is free again: the first waiting call takes it if the
    context is still Active, otherwise every waiting call is turned
    away. *)
Definition free_slot (results : list (nat * ExecutionResult)) (c : Context)
    (waiting : list (nat * Request)) (next : nat)
  : list (nat * ExecutionResult) * Running :=
  match ctx_state c with
  | Active =>
      match waiting with
      | [] => (results, mkRunning c None [] next)
      | w :: rest => (results, mkRunning c (Some w) rest next)
      end
  | _ => (results ++ reject_all waiting, mkRunning c None [] next)
  end.

Definition step (E : Engine) (cfg : BridgeConfig) (s : Running) (st : Step)
  : list (nat * ExecutionResult) * Running :=
  let c := run_context s in
  match st with
  | Call r =>
      let k := run_next s in
      match ctx_state c with
      | Active =>
          match run_slot s with
          | None => ([], mkRunning c (Some (k, r)) (run_waiting s) (S k))
          | Some _ => ([], mkRunning c (run_slot s) (run_waiting s ++ [(k, r)]) (S k))
          end
      | _ => ([(k, disposed_result)], mkRunning c (run_slot s) (run_waiting s) (S k))
      end
  | Finish =>
      match run_slot s with
      | None => ([], s)
      | Some (k, r) =>
          let '(result, c') := execute E cfg c r in
          free_slot [(k, result)] c' (run_waiting s) (run_next s)
      end
  | Cancelled =>
      match run_slot s, ctx_state c with
      | None, _ | _, Active => ([], s)
      | Some (k, _), _ => free_slot [(k, disposed_result)] c (run_waiting s) (run_next s)
      end
  | DisposeCalled =>
      (reject_all (run_waiting s),
       mkRunning (dispose_begin c) (run_slot s) [] (run_next s))
  | DisposeCompleted =>
      match run_slot s with
      | None => ([], mkRunning (dispose_end c) None (run_waiting s) (run_next s))
      | Some _ => ([], s)
      end
  end.

(** Modelled from the spec: the results delivered along a schedule of
    such steps, in order, and the context at its end. *)
Fixpoint run (E : Engine) (cfg : BridgeConfig) (s : Running) (schedule : list Step)
  : list (nat * ExecutionResult) * Running :=
  match schedule with
  | [] => ([], s)
  | st :: rest =>
      let '(results, s') := step E cfg s st in
      let '(later, s'') := run E cfg s' rest in
      (results ++ later, s'')
  end.

(** ** The lifecycle manager's registry *)







End Core.

(** ** A small engine to run the core on

    It knows two programs: [x=1], which sets the global [x], and
    [typeof x]. *)

Module ToyEngine.
Import Core.

Definition units (s : string) : EngineString :=
  map N_of_ascii (list_ascii_of_string s).

Definition text (u : EngineString) : option string :=
  Some (string_of_list_ascii (map ascii_of_N u)).

Definition bridge : BridgeConfig := default_bridge text (fun s => Some (units s)).

Definition typeof (v : option EngineValue) : string :=
  match v with
  | None | Some EUndefined => "undefined"
  | Some (EInteger _) | Some (ENumber _) => "number"
  | Some (EBoolean _) => "boolean"
  | Some (EString _) => "string"
  | Some ENull | Some (EReference _) => "object"
  end.

Definition evaluate_program (iso : Isolate) (deadline : option N) (source : string)
  : EngineOutcome * Isolate :=
  if String.eqb source "x=1" then
    (Completed (EInteger 1),
     mkIsolate (iso_heap iso) (<["x" := EInteger 1]> (iso_globals iso)))
  else if String.eqb source "typeof x" then
    (Completed (EString (units (typeof (iso_globals iso !! "x")))), iso)
  else (SyntaxFault "unexpected token", iso).

Definition engine : Engine :=
  mkEngine evaluate_program (fun iso _ _ _ => (Threw "not a function" None, iso)).

End ToyEngine.

(** * Properties of the build script *)

(** ** File names *)

Lemma append_empty_r (s : string) : s +:+ "" = s.
Proof.
  induction s as [|c s IH]; [reflexivity|].
  change (String c (s +:+ "") = String c s). now rewrite IH.
Qed.


(** C1: the engine library's file name is a function of the platform
    ([os.name] and [sys.platform]) alone: on a posix system whose platform
    is darwin it is [libmini_racer.dylib], on win32 it is [mini_racer.dll],
    and on every other platform it is [libmini_racer.so]; in each case it
    is a prefix, then [mini_racer], then the platform's extension. *)
Theorem get_filename_by_platform (env : Env) :
  (os_name env = "posix" /\ sys_platform env = "darwin" ->
     get_filename env = "libmini_racer.dylib") /\
  (sys_platform env = "win32" -> get_filename env = "mini_racer.dll") /\
  (~ (os_name env = "posix" /\ sys_platform env = "darwin") ->
   sys_platform env <> "win32" ->
     get_filename env = "libmini_racer.so") /\
  (forall env' : Env,
     os_name env' = os_name env -> sys_platform env' = sys_platform env ->
     get_filename env' = get_filename env) /\
  (exists prefix ext : string,
     get_filename env = prefix +:+ "mini_racer" +:+ ext /\
     (prefix = "lib" \/ prefix = "") /\
     (ext = ".dylib" \/ ext = ".dll" \/ ext = ".so")).
Proof.
  unfold get_filename.
  repeat split.
  - intros [Hos Hpl]. rewrite Hos, Hpl. reflexivity.
  - intros Hpl. rewrite Hpl.
    destruct (String.eqb (os_name env) "posix"); reflexivity.
  - intros Hnot Hwin.
    destruct (String.eqb_spec (os_name env) "posix") as [Hos|Hos];
      destruct (String.eqb_spec (sys_platform env) "darwin") as [Hpl|Hpl];
      destruct (String.eqb_spec (sys_platform env) "win32") as [Hw|Hw];
      simpl; try reflexivity; try contradiction.
    all: exfalso; apply Hnot; split; assumption.
  - intros env' Hos Hpl. rewrite Hos, Hpl. reflexivity.
  - destruct (String.eqb (os_name env) "posix" && String.eqb (sys_platform env) "darwin").
    + exists "lib", ".dylib". auto.
    + destruct (String.eqb (sys_platform env) "win32").
      * exists "", ".dll". auto.
      * exists "lib", ".so". auto.
Qed.

Lemma get_filename_by_platform_witness :
  get_filename darwin_env = "libmini_racer.dylib" /\
  get_filename win32_env = "mini_racer.dll" /\
  get_filename linux_env = "libmini_racer.so" /\
  get_filename (posix_env "java" "darwin") = "libmini_racer.so".
Proof.
  split; [|split; [|split]].
  - apply (proj1 (get_filename_by_platform darwin_env)). split; reflexivity.
  - apply (proj1 (proj2 (get_filename_by_platform win32_env))). reflexivity.
  - apply (proj1 (proj2 (proj2 (get_filename_by_platform linux_env)))).
    + intros [_ H]. discriminate H.
    + intros H. discriminate H.
  - apply (proj1 (proj2 (proj2 (get_filename_by_platform (posix_env "java" "darwin"))))).
    + intros [H _]. discriminate H.
    + intros H. discriminate H.
Defined.

(** *** Splitting and joining *)

Lemma split_not_nil (c : ascii) (s : string) : PyStr.split c s <> [].
Proof.
  induction s as [|x s IH]; simpl; [discriminate|].
  destruct (Ascii.eqb x c); [discriminate|].
  destruct (PyStr.split c s); discriminate.
Qed.

Lemma join_cons (c : ascii) (s : string) (l : list string) :
  l <> [] -> PyStr.join c (s :: l) = s +:+ String c (PyStr.join c l).
Proof. destruct l; [contradiction | reflexivity]. Qed.

Lemma join_split (c : ascii) (s : string) : PyStr.join c (PyStr.split c s) = s.
Proof.
  induction s as [|x s IH]; [reflexivity|].
  simpl PyStr.split.
  destruct (Ascii.eqb_spec x c) as [->|Hx].
  - rewrite join_cons by apply split_not_nil. now rewrite IH.
  - pose proof (split_not_nil c s) as Hne.
    destruct (PyStr.split c s) as [|piece pieces]; [contradiction|].
    destruct pieces as [|piece' pieces].
    + simpl in *. now rewrite IH.
    + rewrite join_cons in IH by discriminate.
      rewrite join_cons by discriminate.
      change (String x (piece +:+ String c (PyStr.join c (piece' :: pieces))) = String x s).
      now rewrite IH.
Qed.

Lemma split_no_separator (c : ascii) (s : string) :
  Forall (fun piece => PyStr.contains c piece = false) (PyStr.split c s).
Proof.
  induction s as [|x s IH]; simpl.
  - repeat constructor.
  - destruct (Ascii.eqb x c) eqn:Hx.
    + constructor; [reflexivity | exact IH].
    + destruct (PyStr.split c s) as [|piece pieces].
      * constructor; [simpl; now rewrite Hx | constructor].
      * inversion IH as [|? ? Hpiece Hrest]; subst.
        constructor; [simpl; now rewrite Hx, Hpiece | exact Hrest].
Qed.

Lemma pop_last_snoc (l : list string) (x : string) :
  PyStr.pop_last (l ++ [x]) = Some (l, x).
Proof.
  induction l as [|y l IH]; [reflexivity|].
  simpl. rewrite IH. destruct (l ++ [x]) eqn:E; [|reflexivity].
  destruct l; discriminate.
Qed.

Lemma pop_last_Some (l : list string) :
  l <> [] -> exists init z, l = init ++ [z] /\ PyStr.pop_last l = Some (init, z).
Proof.
  intros Hne. destruct (exists_last Hne) as (init & z & ->).
  exists init, z. split; [reflexivity | apply pop_last_snoc].
Qed.

Lemma append_assoc (a b c : string) : (a +:+ b) +:+ c = a +:+ b +:+ c.
Proof.
  induction a as [|x a IH]; [reflexivity|].
  change (String x ((a +:+ b) +:+ c) = String x (a +:+ b +:+ c)). now rewrite IH.
Qed.

Lemma posixpath_join_snoc (path : string) (p : list string) (b : string) :
  posixpath_join path (p ++ [b]) = posixpath_join (posixpath_join path p) [b].
Proof.
  revert path. induction p as [|x p IH]; intros path; [reflexivity|].
  simpl app. cbn [posixpath_join]. apply IH.
Qed.

(** The last component always ends the joined posix path. *)
Lemma posixpath_join_ends_with_last (path : string) (p : list string) (b : string) :
  exists dir, posixpath_join path (p ++ [b]) = dir +:+ b.
Proof.
  rewrite posixpath_join_snoc. cbn [posixpath_join].
  set (q := posixpath_join path p).
  destruct (PyStr.startswith "/" b).
  - exists "". reflexivity.
  - destruct (String.eqb q "" || PyStr.endswith_char "/" q).
    + exists q. reflexivity.
    + exists (q +:+ "/"). now rewrite append_assoc.
Qed.

Example get_ext_filename_v8_posix :
  get_ext_filename linux_env "py_mini_racer._v8" = ([], Returned "py_mini_racer/_v8.so").
Proof. reflexivity. Qed.

Example get_ext_filename_v8_build :
  get_ext_filename darwin_env "_v8" = ([], Returned "_v8.so").
Proof. reflexivity. Qed.


(** ** The [build_v8] command *)


(** The default target: [self.target is None or self.target == "v8"]. *)
Lemma target_is_default_spec (target : option string) :
  target_is_default target = true <-> target = None \/ target = Some "v8".
Proof.
  destruct target as [t|]; simpl.
  - rewrite String.eqb_eq. split.
    + intros ->. now right.
    + intros [H|H]; [discriminate | now injection H].
  - split; [now left | reflexivity].
Qed.

Example run_already_built :
  MiniRacerBuildV8_run built_env None
  = ([EvIsFile "out/obj/v8/libv8_base.a"; EvPrint "v8 was already built"], Returned tt).
Proof. reflexivity. Qed.

Example run_python3_refused :
  MiniRacerBuildV8_run linux_env (Some "py_mini_racer_shared_lib")
  = ([EvCheckOutput python_version_cmd], Raised (Exception python27_msg)).
Proof. reflexivity. Qed.

(** C9: [build_v8] leaves a completed default build alone.  With target
    [None] or ["v8"] and [libv8_base.a] present under [out/obj/v8] of the
    local V8 path, [run] probes that file, prints a note and returns: no
    version check, no clone, no build.  In every other case it runs
    [python --version] first (right after the probe, if there was one),
    and when the reported version does not start with [Python 2.7] it
    raises [Exception] there and then; the V8 build is only ever invoked
    after that check reported Python 2.7. *)
Theorem MiniRacerBuildV8_run_completed_build (env : Env) (target : option string) :
  ((target = None \/ target = Some "v8") ->
   os_path_isfile env (v8_object_path env "libv8_base.a") = true ->
   MiniRacerBuildV8_run env target
   = ([EvIsFile (v8_object_path env "libv8_base.a"); EvPrint "v8 was already built"],
      Returned tt)) /\
  (~ ((target = None \/ target = Some "v8") /\
      os_path_isfile env (v8_object_path env "libv8_base.a") = true) ->
   exists probe rest,
     trace (MiniRacerBuildV8_run env target)
     = probe ++ EvCheckOutput python_version_cmd :: rest /\
     (probe = [] \/ probe = [EvIsFile (v8_object_path env "libv8_base.a")]) /\
     (forall out text,
        run_check_output env python_version_cmd = inr out ->
        bytes_decode env (PyStr.strip out) = inr text ->
        PyStr.startswith "Python 2.7" text = false ->
        rest = [] /\
        outcome (MiniRacerBuildV8_run env target) = Raised (Exception python27_msg)) /\
     (forall t,
        In (EvBuildV8 t) (trace (MiniRacerBuildV8_run env target)) ->
        exists out text,
          run_check_output env python_version_cmd = inr out /\
          bytes_decode env (PyStr.strip out) = inr text /\
          PyStr.startswith "Python 2.7" text = true)).
Proof.
  split.
  - intros Hdefault Hfile. apply target_is_default_spec in Hdefault.
    unfold MiniRacerBuildV8_run, is_v8_built. rewrite Hdefault.
    simpl. rewrite Hfile. reflexivity.
  - intros Hneed.
    assert (Hnot : target_is_default target
                   && os_path_isfile env (v8_object_path env "libv8_base.a") = false).
    { apply not_true_is_false. intros H. apply andb_prop in H as [Hd Hf].
      apply Hneed. split; [now apply target_is_default_spec | exact Hf]. }
    assert (Hgate : exists probe,
               (probe = [] \/ probe = [EvIsFile (v8_object_path env "libv8_base.a")]) /\
               (if target_is_default target then is_v8_built env else ret false)
               = (probe, Returned false)).
    { unfold is_v8_built, isfile. destruct (target_is_default target); simpl in Hnot |- *.
      - rewrite Hnot. eexists; split; [right; reflexivity | reflexivity].
      - eexists; split; [left; reflexivity | reflexivity]. }
    destruct Hgate as (probe & Hshape & Hgate).
    exists probe.
    unfold MiniRacerBuildV8_run. rewrite Hgate. clear Hgate.
    unfold check_python_version, check_output, decode, is_depot_tools_checkout,
      check_call, build_v8, lift_call, isdir, print, trace, outcome.
    fold python_version_cmd. cbn [bind].
    destruct (run_check_output env python_version_cmd) as [e|out] eqn:Hco; simpl;
      [| destruct (bytes_decode env (PyStr.strip out)) as [e|text] eqn:Hdec; simpl;
         [| destruct (PyStr.startswith "Python 2.7" text) eqn:Hstart; simpl;
            [ destruct (os_path_isdir env (local_path env "vendor/depot_tools")); simpl;
              [| destruct (run_check_call env depot_tools_clone); simpl];
              try (destruct (run_build_v8 env target); simpl) |]]];
      rewrite ?app_nil_r;
      (eexists; split; [reflexivity|]); (split; [exact Hshape|]); split.
    all: try (intros out' text' H1 H2 H3; try discriminate H1;
              injection H1 as <-; rewrite Hdec in H2; try discriminate H2;
              injection H2 as <-; rewrite Hstart in H3; try discriminate H3;
              split; reflexivity).
    all: try (intros t Hin; exists out, text; repeat split; assumption).
    all: intros t Hin; exfalso;
      apply in_app_or in Hin as [Hin|Hin];
      [ destruct Hshape as [->| ->]; simpl in Hin; intuition discriminate
      | simpl in Hin; intuition discriminate ].
Qed.


Lemma MiniRacerBuildV8_run_completed_build_witness :
  MiniRacerBuildV8_run built_env (Some "v8")
  = ([EvIsFile "out/obj/v8/libv8_base.a"; EvPrint "v8 was already built"], Returned tt)
  /\ outcome (MiniRacerBuildV8_run linux_env None) = Raised (Exception python27_msg).
Proof.
  split.
  - apply (proj1 (MiniRacerBuildV8_run_completed_build built_env (Some "v8")));
      [right; reflexivity | reflexivity].
  - destruct (proj2 (MiniRacerBuildV8_run_completed_build linux_env None))
      as (probe & rest & _ & _ & Hrefuse & _).
    + intros [_ Hfile]. discriminate Hfile.
    + apply (Hrefuse "Python 3.7.4
" "Python 3.7.4"); reflexivity.
Defined.

(** ** The [build_ext] command *)

Lemma percent_s_fill (pre post arg : string) :
  PyStr.contains "%" pre = false ->
  PyStr.percent_s (pre +:+ "%s" +:+ post) arg = pre +:+ arg +:+ post.
Proof.
  induction pre as [|c pre IH]; intros Hpre; [reflexivity|].
  simpl in Hpre. apply orb_false_elim in Hpre as [Hc Hpre].
  change (String c pre +:+ "%s" +:+ post) with (String c (pre +:+ "%s" +:+ post)).
  cbn [PyStr.percent_s]. rewrite Hc, (IH Hpre). reflexivity.
Qed.


Lemma err_msg_filled (arg : string) :
  PyStr.percent_s err_msg arg = pip_guidance +:+ arg.
Proof.
  change err_msg with (pip_guidance +:+ "%s" +:+ "").
  rewrite percent_s_fill by reflexivity.
  now rewrite append_empty_r.
Qed.


Lemma get_ext_filename_returns (env : Env) (name : string) :
  exists path, get_ext_filename env name = ([], Returned path).
Proof.
  unfold get_ext_filename.
  destruct (pop_last_Some (PyStr.split "." name) (split_not_nil _ _))
    as (parts & last & _ & ->).
  destruct parts; simpl; eexists; reflexivity.
Qed.

(** The steps of the [try] block that can fail: re-initialising and
    running [build_v8] when the library is missing, and the final copy. *)
Lemma build_extensions_body_failure (env : Env) (t : list Event) (e : PyExc) :
  build_extensions_body env = (t, Raised e) ->
  (os_path_isfile env (build_src env) = false /\
   (run_reinitialize_command env "build_v8" "py_mini_racer_shared_lib" = Some e \/
    outcome (MiniRacerBuildV8_run env (Some "py_mini_racer_shared_lib")) = Raised e)) \/
  (exists dest, run_copy_file env (build_src env) dest = Some e).
Proof.
  unfold build_extensions_body. fold (build_src env).
  destruct (get_ext_filename_returns env "_v8") as [path ->].
  unfold isfile, reinitialize_command, run_command_build_v8, copy_file, lift_call, outcome.
  destruct (MiniRacerBuildV8_run env (Some "py_mini_racer_shared_lib")) as [t' [[]|e']].
  all: cbn [bind emit ret app].
  all: destruct (os_path_isfile env (build_src env)); cbn.
  all: try (destruct (run_reinitialize_command env _ _) as [e0|]; cbn;
            [intros H; left; injection H as _ <-; split; [reflexivity | now left]|]).
  all: try (destruct (run_copy_file env _ _) as [e1|] eqn:Hcopy; cbn; intros H;
            [right; injection H as _ <-; eexists; exact Hcopy | discriminate H]).
  intros H. left. injection H as _ <-. split; [reflexivity | now right].
Qed.


(** C10, as the code has it: a step inside the [try] of
    [build_extensions] that fails with an instance of [Exception] is not
    propagated: after the events of the body the traceback of the error
    is printed and a new [Exception] is raised whose message is
    [err_msg] filled with [repr(e)], the pip-upgrade guidance followed
    by the repr of the original error.  An exception that is not an
    instance of [Exception] is not handled: it leaves the command as it
    was raised, and no traceback is printed. *)
Theorem build_extensions_wraps_failure (env : Env) (t : list Event) (e : PyExc) :
  build_extensions_body env = (t, Raised e) ->
  (exc_is_Exception e = true ->
   build_extensions env
   = (t ++ [EvPrintExc e], Raised (Exception (PyStr.percent_s err_msg (repr env e)))) /\
   PyStr.percent_s err_msg (repr env e) = pip_guidance +:+ repr env e /\
   PyStr.infix "ensure you have an up-to-date pip (>= 8.1)" pip_guidance = true /\
   PyStr.infix "To update pip: 'pip install -U pip'" pip_guidance = true) /\
  (exc_is_Exception e = false -> build_extensions env = (t, Raised e)).
Proof.
  intros Hbody. unfold build_extensions, try_except_Exception. rewrite Hbody.
  split; intros Hcls; rewrite Hcls.
  - split; [reflexivity|].
    split; [apply err_msg_filled | split; reflexivity].
  - reflexivity.
Qed.

Lemma build_extensions_wraps_failure_witness :
  build_extensions linux_env
  = ([EvIsFile "/src/PyMiniRacer/py_mini_racer/extension/out/libmini_racer.so";
      EvReinitializeCommand "build_v8" "py_mini_racer_shared_lib";
      EvCheckOutput python_version_cmd;
      EvPrintExc (Exception python27_msg)],
     Raised (Exception (PyStr.percent_s err_msg (repr linux_env (Exception python27_msg))))).
Proof.
  apply (proj1 (build_extensions_wraps_failure linux_env
           [EvIsFile "/src/PyMiniRacer/py_mini_racer/extension/out/libmini_racer.so";
            EvReinitializeCommand "build_v8" "py_mini_racer_shared_lib";
            EvCheckOutput python_version_cmd]
           (Exception python27_msg) eq_refl)); reflexivity.
Defined.

(** C10 as stated fails: a [KeyboardInterrupt] raised while V8 is being
    built is a failing step of the build, and [build_extensions] lets it
    through unchanged: no traceback is printed and no new [Exception]
    with the guidance is raised. *)
Lemma build_extensions_interrupt_propagates :
  build_extensions_body interrupted_env = (interrupted_trace, Raised KeyboardInterrupt) /\
  build_extensions interrupted_env = (interrupted_trace, Raised KeyboardInterrupt) /\
  ~ In (EvPrintExc KeyboardInterrupt) (trace (build_extensions interrupted_env)) /\
  outcome (build_extensions interrupted_env)
  <> Raised (Exception (PyStr.percent_s err_msg (repr interrupted_env KeyboardInterrupt))).
Proof.
  assert (Hbody : build_extensions_body interrupted_env
                  = (interrupted_trace, Raised KeyboardInterrupt)) by reflexivity.
  assert (Hrun : build_extensions interrupted_env
                 = (interrupted_trace, Raised KeyboardInterrupt)).
  { unfold build_extensions, try_except_Exception. now rewrite Hbody. }
  split; [exact Hbody|]. split; [exact Hrun|]. rewrite Hrun. split.
  - unfold trace, interrupted_trace. simpl. intuition discriminate.
  - unfold outcome. simpl. intros H. discriminate H.
Qed.

(** When nothing fails the command ends as its body does, and an
    exception outside [Exception] (a [KeyboardInterrupt], say) is not
    handled. *)
Lemma build_extensions_returns (env : Env) (t : list Event) :
  build_extensions_body env = (t, Returned tt) ->
  build_extensions env = (t, Returned tt).
Proof. intros H. unfold build_extensions, try_except_Exception. now rewrite H. Qed.

Lemma build_extensions_not_handled (env : Env) (t : list Event) (e : PyExc) :
  build_extensions_body env = (t, Raised e) ->
  exc_is_Exception e = false ->
  build_extensions env = (t, Raised e).
Proof. intros H Hc. unfold build_extensions, try_except_Exception. now rewrite H, Hc. Qed.

(** ** Requirements *)

Lemma list_ge_two (a b x y : Z) :
  PyText.list_ge [a; b] [x; y] = true <-> (x < a \/ (a = x /\ y <= b))%Z.
Proof.
  simpl. destruct (Z.eqb_spec a x) as [->|Hne].
  - destruct (Z.eqb_spec b y) as [->|Hne'].
    + split; [intros _; right; lia | reflexivity].
    + rewrite Z.ltb_lt. lia.
  - rewrite Z.ltb_lt. lia.
Qed.

Lemma list_ge_one (a x y : Z) :
  PyText.list_ge [a] [x; y] = true <-> (x < a)%Z.
Proof.
  simpl. destruct (Z.eqb_spec a x) as [->|Hne].
  - split; [discriminate | lia].
  - apply Z.ltb_lt.
Qed.

Lemma parse_requirements_unfold (penv : PipEnv) (filepath version : string)
    (pieces : list string) (pip_version : list Z) :
  pip_distribution_version penv = inr version ->
  firstn 2 (PyStr.split "." version) = pieces ->
  map_int penv pieces = ([], Returned pip_version) ->
  _parse_requirements penv filepath
  = requirements_loaded_by
      (if PyText.list_ge pip_version [10; 0]%Z then
         parse_with_session penv "pip._internal.download" "pip._internal.req" filepath
       else if PyText.list_ge pip_version [6; 0]%Z then
         parse_with_session penv "pip.download" "pip.req" filepath
       else load_without_session penv filepath).
Proof.
  intros Hv Hp Hint. unfold _parse_requirements, requirements_loaded_by, pip_call.
  rewrite Hv. cbn [pbind]. rewrite Hp, Hint. cbn [pbind app].
  unfold load_without_session.
  set (loaded := pbind (if PyText.list_ge pip_version [10; 0]%Z then _ else _) _).
  destruct loaded as [t r]. reflexivity.
Qed.

Lemma map_int_two (penv : PipEnv) (p1 p2 : string) (a b : Z) :
  py_int penv p1 = inr a -> py_int penv p2 = inr b ->
  map_int penv [p1; p2] = ([], Returned [a; b]).
Proof. intros H1 H2. simpl. rewrite H1, H2. reflexivity. Qed.

(** X1: with a pip version [major.minor...] whose first two components
    are numbers and [minor] is not negative, [_parse_requirements] loads
    the file through [pip._internal] with a session when [major >= 10],
    through [pip.download] and [pip.req] with a session when
    [6 <= major < 10], and through [pip.req] without a session when
    [major < 6]; components after the second are never looked at. *)
Theorem parse_requirements_by_pip_version (penv : PipEnv) (filepath version : string)
    (p1 p2 : string) (rest : list string) (major minor : Z) :
  pip_distribution_version penv = inr version ->
  PyStr.split "." version = p1 :: p2 :: rest ->
  py_int penv p1 = inr major ->
  py_int penv p2 = inr minor ->
  (0 <= minor)%Z ->
  ((10 <= major)%Z ->
   _parse_requirements penv filepath
   = requirements_loaded_by
       (parse_with_session penv "pip._internal.download" "pip._internal.req" filepath)) /\
  ((6 <= major < 10)%Z ->
   _parse_requirements penv filepath
   = requirements_loaded_by (parse_with_session penv "pip.download" "pip.req" filepath)) /\
  ((major < 6)%Z ->
   _parse_requirements penv filepath
   = requirements_loaded_by (load_without_session penv filepath)).
Proof.
  intros Hv Hsplit H1 H2 Hminor.
  assert (Hrun := parse_requirements_unfold penv filepath version [p1; p2] [major; minor]
                    Hv ltac:(now rewrite Hsplit) (map_int_two penv p1 p2 major minor H1 H2)).
  pose proof (list_ge_two major minor 10 0) as H10.
  pose proof (list_ge_two major minor 6 0) as H6.
  rewrite Hrun. repeat split; intros Hmajor.
  - destruct (PyText.list_ge [major; minor] [10; 0]%Z); [reflexivity|].
    assert (false = true) by (apply H10; lia). discriminate.
  - destruct (PyText.list_ge [major; minor] [10; 0]%Z).
    + assert (10 < major \/ major = 10 /\ 0 <= minor)%Z by now apply H10. lia.
    + destruct (PyText.list_ge [major; minor] [6; 0]%Z); [reflexivity|].
      assert (false = true) by (apply H6; lia). discriminate.
  - destruct (PyText.list_ge [major; minor] [10; 0]%Z).
    + assert (10 < major \/ major = 10 /\ 0 <= minor)%Z by now apply H10. lia.
    + destruct (PyText.list_ge [major; minor] [6; 0]%Z); [|reflexivity].
      assert (6 < major \/ major = 6 /\ 0 <= minor)%Z by now apply H6. lia.
Qed.

Lemma parse_requirements_by_pip_version_witness :
  _parse_requirements (example_pip "18.1") "requirements/prod.txt"
  = ([PipGetDistribution "pip";
      PipImport "pip._internal.download" "PipSession";
      PipImport "pip._internal.req" "parse_requirements";
      PipSession "pip._internal.download";
      PipParseRequirements "pip._internal.req" "requirements/prod.txt" true],
     Returned ["six"; "None"])
  /\ _parse_requirements (example_pip "9.0.3") "requirements/prod.txt"
     = requirements_loaded_by
         (parse_with_session (example_pip "9.0.3") "pip.download" "pip.req"
            "requirements/prod.txt")
  /\ _parse_requirements (example_pip "1.5.6") "requirements/prod.txt"
     = requirements_loaded_by
         (load_without_session (example_pip "1.5.6") "requirements/prod.txt").
Proof.
  split; [|split].
  - apply (proj1 (parse_requirements_by_pip_version (example_pip "18.1")
                    "requirements/prod.txt" "18.1" "18" "1" [] 18 1
                    eq_refl eq_refl eq_refl eq_refl ltac:(lia))). lia.
  - apply (proj1 (proj2 (parse_requirements_by_pip_version (example_pip "9.0.3")
                    "requirements/prod.txt" "9.0.3" "9" "0" ["3"] 9 0
                    eq_refl eq_refl eq_refl eq_refl ltac:(lia)))). lia.
  - apply (proj2 (proj2 (parse_requirements_by_pip_version (example_pip "1.5.6")
                    "requirements/prod.txt" "1.5.6" "1" "5" ["6"] 1 5
                    eq_refl eq_refl eq_refl eq_refl ltac:(lia)))). lia.
Defined.

(** X2: a pip version without a dot is compared as a one-element list,
    which is smaller than any two-element list it starts: version [10]
    is loaded the way pip 6 to 9 are, and version [6] without a
    session. *)
Theorem parse_requirements_version_without_dot (penv : PipEnv)
    (filepath version : string) (major : Z) :
  pip_distribution_version penv = inr version ->
  PyStr.contains "." version = false ->
  py_int penv version = inr major ->
  ((10 < major)%Z ->
   _parse_requirements penv filepath
   = requirements_loaded_by
       (parse_with_session penv "pip._internal.download" "pip._internal.req" filepath)) /\
  ((6 < major <= 10)%Z ->
   _parse_requirements penv filepath
   = requirements_loaded_by (parse_with_session penv "pip.download" "pip.req" filepath)) /\
  ((major <= 6)%Z ->
   _parse_requirements penv filepath
   = requirements_loaded_by (load_without_session penv filepath)).
Proof.
  intros Hv Hdot Hint.
  assert (Hsplit : PyStr.split "." version = [version]).
  { clear Hv Hint. induction version as [|c s IH]; [reflexivity|].
    simpl in Hdot |- *. apply orb_false_elim in Hdot as [Hc Hs].
    rewrite Hc, (IH Hs). reflexivity. }
  assert (Hrun := parse_requirements_unfold penv filepath version [version] [major]
                    Hv ltac:(now rewrite Hsplit)
                    ltac:(simpl; now rewrite Hint)).
  pose proof (list_ge_one major 10 0) as H10.
  pose proof (list_ge_one major 6 0) as H6.
  rewrite Hrun. repeat split; intros Hmajor.
  - destruct (PyText.list_ge [major] [10; 0]%Z); [reflexivity|].
    assert (false = true) by (apply H10; lia). discriminate.
  - destruct (PyText.list_ge [major] [10; 0]%Z).
    + assert (10 < major)%Z by now apply H10. lia.
    + destruct (PyText.list_ge [major] [6; 0]%Z); [reflexivity|].
      assert (false = true) by (apply H6; lia). discriminate.
  - destruct (PyText.list_ge [major] [10; 0]%Z).
    + assert (10 < major)%Z by now apply H10. lia.
    + destruct (PyText.list_ge [major] [6; 0]%Z); [|reflexivity].
      assert (6 < major)%Z by now apply H6. lia.
Qed.

Lemma parse_requirements_version_without_dot_witness :
  _parse_requirements (example_pip "10") "requirements/prod.txt"
  = requirements_loaded_by
      (parse_with_session (example_pip "10") "pip.download" "pip.req" "requirements/prod.txt").
Proof.
  apply (proj1 (proj2 (parse_requirements_version_without_dot (example_pip "10")
                   "requirements/prod.txt" "10" 10 eq_refl eq_refl eq_refl))). lia.
Defined.

(** X3: when the version lookup fails, or one of the first two
    components of the version is not a number, [_parse_requirements]
    raises that very error and nothing of pip is imported or called. *)
Theorem parse_requirements_bad_version (penv : PipEnv) (filepath : string) (e : PyExc) :
  (pip_distribution_version penv = inl e \/
   exists version p1 rest,
     pip_distribution_version penv = inr version /\
     PyStr.split "." version = p1 :: rest /\
     (py_int penv p1 = inl e \/
      exists major p2 rest',
        rest = p2 :: rest' /\ py_int penv p1 = inr major /\ py_int penv p2 = inl e)) ->
  _parse_requirements penv filepath = ([PipGetDistribution "pip"], Raised e).
Proof.
  unfold _parse_requirements, pip_call.
  intros [Hv|(version & p1 & rest & Hv & Hsplit & Hint)]; rewrite Hv; [reflexivity|].
  cbn [pbind]. rewrite Hsplit.
  destruct Hint as [H1|(major & p2 & rest' & -> & H1 & H2)].
  - destruct rest as [|p2 rest']; simpl; rewrite H1; reflexivity.
  - simpl. rewrite H1, H2. reflexivity.
Qed.

Lemma parse_requirements_bad_version_witness :
  exists e,
    _parse_requirements (example_pip "21.3rc1") "requirements/prod.txt"
    = ([PipGetDistribution "pip"], Raised e).
Proof.
  exists (mkExc "ValueError" "invalid literal for int() with base 10" true).
  apply parse_requirements_bad_version. right.
  exists "21.3rc1", "21", ["3rc1"].
  split; [reflexivity|]. split; [reflexivity|]. right.
  exists 21%Z, "3rc1", []. repeat split; reflexivity.
Defined.

(** ** The texts of the package description *)

Lemma prefix_cons (c d : ascii) (a b : string) :
  String.prefix (String c a) (String d b) = Ascii.eqb c d && String.prefix a b.
Proof.
  simpl. destruct (Ascii.ascii_dec c d) as [->|Hne].
  - now rewrite Ascii.eqb_refl.
  - apply Ascii.eqb_neq in Hne. now rewrite Hne.
Qed.

Lemma clash_prefix (a b r : string) :
  clash a b = true -> String.prefix a (b +:+ r) = false.
Proof.
  revert b. induction a as [|x a IH]; intros [|y b]; simpl clash; try discriminate.
  intros H. change (String y b +:+ r) with (String y (b +:+ r)).
  rewrite prefix_cons. destruct (Ascii.eqb x y); [|reflexivity].
  simpl in H |- *. now apply IH.
Qed.

Lemma replace_from_skip (old new : string) (k : nat) (s : string) :
  PyText.replace_from old new k s = PyText.replace old new (PyText.drop k s).
Proof.
  revert s. induction k as [|k IH]; intros s.
  - destruct s; reflexivity.
  - destruct s as [|c s]; [reflexivity|]. simpl. apply IH.
Qed.

Lemma replace_found (old new : string) (c : ascii) (s : string) :
  String.prefix old (String c s) = true ->
  PyText.replace old new (String c s)
  = new +:+ PyText.replace old new (PyText.drop (String.length old - 1) s).
Proof.
  intros H. unfold PyText.replace at 1. cbn [PyText.replace_from].
  rewrite H. now rewrite replace_from_skip.
Qed.

Lemma replace_kept (old new : string) (c : ascii) (s : string) :
  String.prefix old (String c s) = false ->
  PyText.replace old new (String c s) = String c (PyText.replace old new s).
Proof.
  intros H. unfold PyText.replace. cbn [PyText.replace_from]. now rewrite H.
Qed.

Lemma drop_length (k : nat) (s : string) :
  String.length (PyText.drop k s) <= String.length s.
Proof.
  revert s. induction k as [|k IH]; intros [|c s]; simpl; try lia.
  specialize (IH s). lia.
Qed.

(** A piece of [old] that starts the output started the input. *)
Lemma prefix_through_replace (old new q : string) :
  ends_clash q new = true ->
  forall s, String.prefix q (PyText.replace old new s) = true -> String.prefix q s = true.
Proof.
  induction q as [|x q IH]; intros Hq s; [intros _; destruct s; reflexivity|].
  cbn [ends_clash] in Hq. apply andb_prop in Hq as [Hclash Hq].
  destruct s as [|c s]; [simpl; discriminate|].
  destruct (String.prefix old (String c s)) eqn:Hold.
  - rewrite replace_found by exact Hold.
    now rewrite (clash_prefix _ _ _ Hclash).
  - rewrite replace_kept by exact Hold.
    rewrite !prefix_cons. intros H. apply andb_prop in H as [-> H].
    simpl. now apply IH.
Qed.

Lemma infix_after (old t r : string) :
  clashes_with_ends old t = true ->
  PyStr.infix old r = false -> PyStr.infix old (t +:+ r) = false.
Proof.
  intros Ht Hr. induction t as [|c t IH]; [exact Hr|].
  cbn [clashes_with_ends] in Ht. apply andb_prop in Ht as [Hclash Ht].
  change (String c t +:+ r) with (String c (t +:+ r)).
  cbn [PyStr.infix].
  change (String c (t +:+ r)) with (String c t +:+ r).
  rewrite (clash_prefix _ _ _ Hclash). simpl. now apply IH.
Qed.

Lemma replace_leaves_none (old new : string) :
  old <> "" -> ends_clash old new = true -> clashes_with_ends old new = true ->
  forall s, PyStr.infix old (PyText.replace old new s) = false.
Proof.
  intros Hne Hends Hnew s.
  assert (Hfirst : forall u, String.prefix old (PyText.replace old new u) = false).
  { intros u. destruct (String.prefix old (PyText.replace old new u)) eqn:H; [|reflexivity].
    pose proof (prefix_through_replace old new old Hends u H) as Hu.
    destruct u as [|c u].
    - destruct old; [contradiction | discriminate].
    - rewrite replace_found in H by exact Hu.
      destruct old as [|x old]; [contradiction|].
      cbn [ends_clash] in Hends. apply andb_prop in Hends as [Hclash _].
      now rewrite (clash_prefix _ _ _ Hclash) in H. }
  remember (String.length s) as n eqn:Hn.
  revert s Hn. induction n as [n IH] using lt_wf_ind. intros s ->.
  destruct s as [|c s].
  - destruct old; [contradiction | reflexivity].
  - destruct (String.prefix old (String c s)) eqn:Hold.
    + rewrite replace_found by exact Hold.
      apply infix_after; [exact Hnew|].
      apply (IH (String.length (PyText.drop (String.length old - 1) s))); [|reflexivity].
      pose proof (drop_length (String.length old - 1) s). simpl. lia.
    + rewrite replace_kept by exact Hold.
      cbn [PyStr.infix]. rewrite <- replace_kept by exact Hold.
      rewrite Hfirst. simpl.
      apply (IH (String.length s)); [simpl; lia | reflexivity].
Qed.

Lemma replace_absent (old new s : string) :
  PyStr.infix old s = false -> PyText.replace old new s = s.
Proof.
  induction s as [|c s IH]; [reflexivity|].
  cbn [PyStr.infix]. intros H. apply orb_false_elim in H as [Hp Hrest].
  rewrite replace_kept by exact Hp. now rewrite IH.
Qed.

(** X4: whatever [README.rst] holds, the description built from it has
    no local image link left: every [.. image:: data/] has become a link
    to the repository, and the replacement does not create new ones.  A
    file without such links is taken as it is. *)
Theorem readme_has_no_local_image_link (readme_file : string) :
  PyStr.infix local_image_link (readme_of readme_file) = false /\
  (PyStr.infix local_image_link readme_file = false -> readme_of readme_file = readme_file).
Proof.
  split.
  - apply replace_leaves_none; [discriminate | reflexivity | reflexivity].
  - apply replace_absent.
Qed.

Lemma readme_has_no_local_image_link_witness :
  readme_of "PyMiniRacer
.. image:: https://img.shields.io/pypi/v/py_mini_racer.svg
" = "PyMiniRacer
.. image:: https://img.shields.io/pypi/v/py_mini_racer.svg
".
Proof.
  apply (proj2 (readme_has_no_local_image_link "PyMiniRacer
.. image:: https://img.shields.io/pypi/v/py_mini_racer.svg
")).
  reflexivity.
Defined.

Example readme_of_logo :
  readme_of ".. image:: data/py_mini_racer.png"
  = ".. image:: https://github.com/sqreen/PyMiniRacer/raw/master/data/py_mini_racer.png".
Proof. reflexivity. Qed.

(** ** File names on a posix system *)

Lemma contains_append (c : ascii) (a b : string) :
  PyStr.contains c (a +:+ b) = PyStr.contains c a || PyStr.contains c b.
Proof.
  induction a as [|x a IH]; [reflexivity|].
  change (String x a +:+ b) with (String x (a +:+ b)). simpl.
  rewrite IH. now rewrite orb_assoc.
Qed.

Lemma split_pieces_without (c d : ascii) (s : string) :
  PyStr.contains d s = false ->
  Forall (fun piece => PyStr.contains d piece = false) (PyStr.split c s).
Proof.
  induction s as [|x s IH]; simpl; intros H.
  - repeat constructor.
  - apply orb_false_elim in H as [Hx Hs]. specialize (IH Hs).
    destruct (Ascii.eqb x c).
    + constructor; [reflexivity | exact IH].
    + destruct (PyStr.split c s) as [|piece pieces].
      * constructor; [simpl; now rewrite Hx | constructor].
      * inversion IH as [|? ? Hpiece Hrest]; subst.
        constructor; [simpl; now rewrite Hx, Hpiece | exact Hrest].
Qed.

Lemma last_char_contained (c d : ascii) (s : string) :
  PyStr.contains c s = false -> PyStr.last_char s = Some d -> Ascii.eqb c d = false.
Proof.
  induction s as [|x s IH]; simpl; [discriminate|].
  intros H. apply orb_false_elim in H as [Hx Hs].
  destruct s as [|y s].
  - intros [= <-]. now rewrite Ascii.eqb_sym.
  - apply IH, Hs.
Qed.

Lemma last_char_append (a b : string) :
  b <> "" -> PyStr.last_char (a +:+ b) = PyStr.last_char b.
Proof.
  intros Hb. induction a as [|x a IH]; [reflexivity|].
  change (String x a +:+ b) with (String x (a +:+ b)).
  cbn [PyStr.last_char]. destruct (a +:+ b) eqn:E; [|exact IH].
  destruct a; [simpl in E; contradiction | discriminate].
Qed.

Lemma endswith_without (c : ascii) (a b : string) :
  b <> "" -> PyStr.contains c b = false -> PyStr.endswith_char c (a +:+ b) = false.
Proof.
  intros Hb Hc. unfold PyStr.endswith_char. rewrite last_char_append by exact Hb.
  destruct (PyStr.last_char b) as [d|] eqn:Hd; [|reflexivity].
  exact (last_char_contained c d b Hc Hd).
Qed.

Lemma startswith_without (c : ascii) (b : string) :
  PyStr.contains c b = false -> PyStr.startswith (String c "") b = false.
Proof.
  destruct b as [|x b]; [reflexivity|]. simpl. intros H.
  apply orb_false_elim in H as [Hx _].
  destruct (Ascii.ascii_dec c x) as [->|Hne]; [|reflexivity].
  now rewrite Ascii.eqb_refl in Hx.
Qed.

(** Components without slashes, none of them empty before the last, are
    glued with one slash each. *)
Lemma posixpath_join_plain (p : list string) (path : string) :
  (p <> [] -> path <> "" /\ PyStr.endswith_char "/" path = false) ->
  Forall (fun b => PyStr.contains "/" b = false) p ->
  Forall (fun b => b <> "") (removelast p) ->
  posixpath_join path p = PyStr.join "/" (path :: p).
Proof.
  revert path. induction p as [|b rest IH]; intros path Hpath Hslash Hfull; [reflexivity|].
  destruct Hpath as [Hne Hend]; [discriminate|].
  inversion Hslash as [|? ? Hb Hrest]; subst.
  cbn [posixpath_join].
  rewrite (startswith_without "/" b Hb), Hend.
  destruct (String.eqb_spec path "") as [->|_]; [contradiction|]. cbn [orb].
  rewrite join_cons by discriminate.
  destruct rest as [|b' rest].
  - reflexivity.
  - simpl removelast in Hfull. inversion Hfull as [|? ? Hbne Hfull']; subst.
    rewrite IH.
    + rewrite !join_cons by discriminate. now rewrite !append_assoc.
    + intros _. split.
      * destruct path; [contradiction | discriminate].
      * rewrite <- append_assoc. apply endswith_without; assumption.
    + exact Hrest.
    + exact Hfull'.
Qed.

Lemma join_snoc_append (c : ascii) (parts : list string) (last x : string) :
  PyStr.join c (parts ++ [last +:+ x]) = PyStr.join c (parts ++ [last]) +:+ x.
Proof.
  induction parts as [|a parts IH]; [reflexivity|].
  simpl app. rewrite !join_cons by (destruct parts; discriminate).
  rewrite IH. now rewrite append_assoc.
Qed.

(** C8: for every dotted extension name there are its pieces between
    the dots, the same on every platform, such that the destination
    file name is [os.path.join] called with the first piece and then the
    others as further components, the literal [.so] appended to the
    last piece.  The platform's name plays no part in it, only its
    [os.path.join] does, so the suffix is [.so] on win32 and darwin
    too; with the posix join the path ends in the last piece and
    [.so], and for a name without [/] whose pieces before the last are
    not empty it is the pieces joined by [/], then [.so]. *)
Theorem get_ext_filename_joins_dot_parts (name : string) :
  exists (parts : list string) (last first : string) (rest : list string),
    PyStr.split "." name = parts ++ [last] /\
    PyStr.join "." (parts ++ [last]) = name /\
    Forall (fun piece => PyStr.contains "." piece = false) (parts ++ [last]) /\
    parts ++ [last +:+ ".so"] = first :: rest /\
    (forall env : Env,
       get_ext_filename env name = ([], Returned (os_path_join env first rest))) /\
    (forall env : Env,
       os_path_join env = posixpath_join ->
       exists dir, get_ext_filename env name = ([], Returned (dir +:+ last +:+ ".so"))) /\
    (forall env : Env,
       os_path_join env = posixpath_join ->
       PyStr.contains "/" name = false ->
       Forall (fun piece => piece <> "") parts ->
       get_ext_filename env name
       = ([], Returned (PyStr.join "/" (parts ++ [last]) +:+ ".so"))).
Proof.
  destruct (pop_last_Some (PyStr.split "." name) (split_not_nil _ _))
    as (parts & last & Hsplit & Hpop).
  assert (Hcons : exists first rest, parts ++ [last +:+ ".so"] = first :: rest).
  { destruct parts as [|a p]; simpl; eauto. }
  destruct Hcons as (first & rest & Hcons).
  exists parts, last, first, rest.
  assert (Hrun : forall env : Env,
             get_ext_filename env name = ([], Returned (os_path_join env first rest))).
  { intros env. unfold get_ext_filename. rewrite Hpop, Hcons. reflexivity. }
  split; [exact Hsplit|].
  split; [rewrite <- Hsplit; apply join_split|].
  split; [rewrite <- Hsplit; apply split_no_separator|].
  split; [exact Hcons|].
  split; [exact Hrun|]. split.
  - intros env Hposix. rewrite Hrun, Hposix.
    destruct parts as [|a p]; simpl in Hcons; injection Hcons as <- <-.
    + exists "". reflexivity.
    + destruct (posixpath_join_ends_with_last a p (last +:+ ".so")) as [dir ->].
      exists dir. reflexivity.
  - intros env Hposix Hslash Hfull. rewrite Hrun, Hposix.
    rewrite <- join_snoc_append.
    pose proof (split_pieces_without "." "/" name Hslash) as Hpieces.
    rewrite Hsplit in Hpieces. apply Forall_app in Hpieces as [Hparts Hlast].
    inversion Hlast as [|? ? Hlast' _]; subst.
    destruct parts as [|a p]; simpl in Hcons; injection Hcons as <- <-; [reflexivity|].
    inversion Hparts as [|? ? Ha Hp]; subst.
    inversion Hfull as [|? ? Hane Hpne]; subst.
    rewrite posixpath_join_plain; [reflexivity| | |].
    + intros _. split; [exact Hane|].
      change a with ("" +:+ a). apply endswith_without; assumption.
    + apply Forall_app. split; [exact Hp|].
      constructor; [|constructor]. rewrite contains_append, Hlast'. reflexivity.
    + now rewrite removelast_last.
Qed.

Lemma get_ext_filename_joins_dot_parts_witness :
  get_ext_filename darwin_env "py_mini_racer._v8" = ([], Returned "py_mini_racer/_v8.so") /\
  get_ext_filename win32_env "py_mini_racer.extension._v8"
  = ([], Returned "py_mini_racer/extension/_v8.so").
Proof.
  split.
  - destruct (get_ext_filename_joins_dot_parts "py_mini_racer._v8")
      as (parts & last & first & rest & Hsplit & _ & _ & Hcons & Hrun & _).
    change (PyStr.split "." "py_mini_racer._v8") with (["py_mini_racer"] ++ ["_v8"]) in Hsplit.
    apply app_inj_tail in Hsplit as [<- <-].
    injection Hcons as <- <-.
    rewrite Hrun. reflexivity.
  - destruct (get_ext_filename_joins_dot_parts "py_mini_racer.extension._v8")
      as (parts & last & first & rest & Hsplit & _ & _ & _ & _ & _ & Hposix).
    change (PyStr.split "." "py_mini_racer.extension._v8")
      with (["py_mini_racer"; "extension"] ++ ["_v8"]) in Hsplit.
    apply app_inj_tail in Hsplit as [<- <-].
    apply (Hposix win32_env); [reflexivity | reflexivity |].
    repeat constructor; discriminate.
Defined.

(** X5: where [os.path.join] is the posix one, for a name without [/]
    whose dot-separated pieces are not empty (the last one may be), the
    extension's file name is the name with its dots turned into slashes,
    followed by [.so]. *)
Theorem get_ext_filename_posix (env : Env) (name : string) :
  os_path_join env = posixpath_join ->
  PyStr.contains "/" name = false ->
  Forall (fun piece => piece <> "") (removelast (PyStr.split "." name)) ->
  get_ext_filename env name
  = ([], Returned (PyStr.join "/" (PyStr.split "." name) +:+ ".so")).
Proof.
  intros Hposix Hslash Hfull.
  pose proof (split_pieces_without "." "/" name Hslash) as Hpieces.
  unfold get_ext_filename.
  destruct (pop_last_Some (PyStr.split "." name) (split_not_nil _ _))
    as (parts & last & Hsplit & ->).
  rewrite Hsplit in *. rewrite removelast_last in Hfull.
  rewrite <- join_snoc_append.
  apply Forall_app in Hpieces as [Hparts Hlast].
  inversion Hlast as [|? ? Hlast' _]; subst.
  destruct parts as [|a p]; simpl; rewrite Hposix; [reflexivity|].
  inversion Hparts as [|? ? Ha Hp]; subst.
  inversion Hfull as [|? ? Hane Hpne]; subst.
  rewrite posixpath_join_plain; [reflexivity| | |].
  - intros _. split; [exact Hane|].
    change a with ("" +:+ a). apply endswith_without; assumption.
  - apply Forall_app. split; [exact Hp|].
    constructor; [|constructor]. rewrite contains_append, Hlast'. reflexivity.
  - now rewrite removelast_last.
Qed.

Lemma get_ext_filename_posix_witness :
  get_ext_filename linux_env "py_mini_racer.extension._v8"
  = ([], Returned "py_mini_racer/extension/_v8.so").
Proof.
  apply (get_ext_filename_posix linux_env "py_mini_racer.extension._v8").
  - reflexivity.
  - reflexivity.
  - repeat constructor; discriminate.
Defined.

Example get_ext_filename_empty_piece :
  get_ext_filename linux_env "a..b" = ([], Returned "a/b.so").
Proof. reflexivity. Qed.

(** ** More on the [build_v8] command *)

Lemma last_char_cons (x : ascii) (p : string) :
  p <> "" -> PyStr.last_char (String x p) = PyStr.last_char p.
Proof. destruct p; [contradiction | reflexivity]. Qed.

Lemma prefix_empty_r (p : string) : String.prefix p "" = true -> p = "".
Proof. destruct p; [reflexivity | discriminate]. Qed.

(** Stripping on the right does not change whether a text starts with
    [p], when [p] does not end in white space. *)
Lemma prefix_rstrip (s p : string) :
  match PyStr.last_char p with Some c => PyStr.is_space c = false | None => True end ->
  String.prefix p (PyStr.rstrip s) = String.prefix p s.
Proof.
  revert p. induction s as [|c s IH]; intros p Hp; [reflexivity|].
  destruct p as [|x p]; [cbn [PyStr.rstrip]; destruct (PyStr.rstrip s);
                         [destruct (PyStr.is_space c)|]; reflexivity|].
  assert (Hp' : match PyStr.last_char p with
                | Some d => PyStr.is_space d = false | None => True end).
  { destruct p as [|y p]; [exact I|]. now rewrite last_char_cons in Hp by discriminate. }
  specialize (IH p Hp'). rewrite prefix_cons, <- IH.
  cbn [PyStr.rstrip]. destruct (PyStr.rstrip s) as [|k kept] eqn:Hk.
  - destruct (PyStr.is_space c) eqn:Hc.
    + destruct p as [|y p].
      * simpl in Hp. destruct (Ascii.eqb_spec x c) as [->|_]; [congruence | reflexivity].
      * simpl. now rewrite andb_false_r.
    + now rewrite prefix_cons.
  - now rewrite prefix_cons.
Qed.

(** X6: [check_python_version] looks only at what the output starts
    with once white space around it is gone: when the stripped output
    decodes to itself, the check says whether the output, after its
    leading white space, starts with [Python 2.7]; trailing white space
    and anything after the prefix play no part. *)
Theorem check_python_version_prefix (env : Env) (out : string) :
  run_check_output env python_version_cmd = inr out ->
  bytes_decode env (PyStr.strip out) = inr (PyStr.strip out) ->
  check_python_version env
  = ([EvCheckOutput python_version_cmd],
     Returned (PyStr.startswith "Python 2.7" (PyStr.lstrip out))).
Proof.
  intros Hout Hdec. unfold check_python_version, check_output, decode.
  fold python_version_cmd. rewrite Hout. cbn. rewrite Hdec. cbn.
  unfold PyStr.startswith, PyStr.strip. now rewrite prefix_rstrip.
Qed.

Lemma check_python_version_prefix_witness :
  check_python_version (python_env "  Python 2.7.18
")
  = ([EvCheckOutput python_version_cmd], Returned true).
Proof.
  apply (check_python_version_prefix (python_env "  Python 2.7.18
") "  Python 2.7.18
"); reflexivity.
Defined.

(** X7: when [run] has to build and the python check passes,
    [depot_tools] is cloned exactly when [vendor/depot_tools] is not a
    directory, before anything is built; a clone that fails ends the
    command with its error and [build_v8] is not called; otherwise
    [build_v8] is called last, with the command's own target, and the
    command ends as that call does. *)
Theorem MiniRacerBuildV8_run_build_path (env : Env) (target : option string)
    (out text : string) :
  target_is_default target && os_path_isfile env (v8_object_path env "libv8_base.a") = false ->
  run_check_output env python_version_cmd = inr out ->
  bytes_decode env (PyStr.strip out) = inr text ->
  PyStr.startswith "Python 2.7" text = true ->
  (os_path_isdir env (local_path env "vendor/depot_tools") = true ->
   MiniRacerBuildV8_run env target
   = (built_probe env target ++
      [EvCheckOutput python_version_cmd;
       EvIsDir (local_path env "vendor/depot_tools");
       EvPrint ("building " +:+ target_or_v8 target);
       EvBuildV8 target],
      build_v8_outcome env target)) /\
  (os_path_isdir env (local_path env "vendor/depot_tools") = false ->
   forall e, run_check_call env depot_tools_clone = Some e ->
   MiniRacerBuildV8_run env target
   = (built_probe env target ++
      [EvCheckOutput python_version_cmd;
       EvIsDir (local_path env "vendor/depot_tools");
       EvPrint "cloning depot tools submodule";
       EvCheckCall depot_tools_clone],
      Raised e)) /\
  (os_path_isdir env (local_path env "vendor/depot_tools") = false ->
   run_check_call env depot_tools_clone = None ->
   MiniRacerBuildV8_run env target
   = (built_probe env target ++
      [EvCheckOutput python_version_cmd;
       EvIsDir (local_path env "vendor/depot_tools");
       EvPrint "cloning depot tools submodule";
       EvCheckCall depot_tools_clone;
       EvPrint ("building " +:+ target_or_v8 target);
       EvBuildV8 target],
      build_v8_outcome env target)).
Proof.
  intros Hneed Hout Hdec Hstart.
  assert (Hgate : (if target_is_default target then is_v8_built env else ret false)
                  = (built_probe env target, Returned false)).
  { unfold is_v8_built, isfile, built_probe.
    destruct (target_is_default target); simpl in Hneed |- *; [|reflexivity].
    now rewrite Hneed. }
  unfold MiniRacerBuildV8_run. rewrite Hgate. clear Hgate.
  unfold check_python_version, check_output, decode, is_depot_tools_checkout,
    check_call, build_v8, lift_call, isdir, print, build_v8_outcome.
  fold python_version_cmd. cbn [bind]. rewrite Hout. cbn. rewrite Hdec. cbn.
  rewrite Hstart. cbn.
  repeat split.
  - intros ->. cbn. destruct (run_build_v8 env target); reflexivity.
  - intros -> e ->. reflexivity.
  - intros -> ->. cbn. destruct (run_build_v8 env target); reflexivity.
Qed.

Lemma MiniRacerBuildV8_run_build_path_witness :
  MiniRacerBuildV8_run (python_env "Python 2.7.18") (Some "")
  = ([EvCheckOutput python_version_cmd;
      EvIsDir "/src/PyMiniRacer/vendor/depot_tools";
      EvPrint "cloning depot tools submodule";
      EvCheckCall depot_tools_clone;
      EvPrint "building v8";
      EvBuildV8 (Some "")],
     Returned tt).
Proof.
  apply (proj2 (proj2 (MiniRacerBuildV8_run_build_path (python_env "Python 2.7.18")
                         (Some "") "Python 2.7.18" "Python 2.7.18"
                         eq_refl eq_refl eq_refl eq_refl))); reflexivity.
Defined.

(** ** More on the [build_ext] command *)

Lemma get_ext_filename_v8 (env : Env) :
  get_ext_filename env "_v8" = ([], Returned (os_path_join env "_v8.so" [])).
Proof. reflexivity. Qed.

Lemma bind_ret_l {A B} (a : A) (k : A -> M B) : bind (ret a) k = k a.
Proof. unfold bind, ret. destruct (k a). reflexivity. Qed.

Lemma build_extensions_body_steps (env : Env) :
  build_extensions_body env
  = bind (isfile env (build_src env))
      (fun found =>
         bind (if negb found
               then bind (reinitialize_command env "build_v8" "py_mini_racer_shared_lib")
                      (fun _ => run_command_build_v8 env "py_mini_racer_shared_lib")
               else ret tt)
           (fun _ => copy_file env (build_src env) (build_dest env))).
Proof.
  unfold build_extensions_body. rewrite get_ext_filename_v8.
  exact (bind_ret_l _ _).
Qed.

(** X8: when the engine library is already under [out], [build_ext]
    only copies it: it checks that the file is there and copies it to
    [_v8.so] under the build directory, without re-initialising or
    running [build_v8]; if the copy succeeds the command returns. *)
Theorem build_extensions_library_present (env : Env) :
  os_path_isfile env (build_src env) = true ->
  (exists tail,
     trace (build_extensions env)
     = [EvIsFile (build_src env); EvCopyFile (build_src env) (build_dest env)] ++ tail /\
     (tail = [] \/ exists e, tail = [EvPrintExc e])) /\
  (run_copy_file env (build_src env) (build_dest env) = None ->
   build_extensions env
   = ([EvIsFile (build_src env); EvCopyFile (build_src env) (build_dest env)],
      Returned tt)).
Proof.
  intros Hfile.
  unfold build_extensions, try_except_Exception, trace.
  rewrite build_extensions_body_steps.
  unfold isfile, copy_file, lift_call. cbn [bind emit ret app]. rewrite Hfile.
  cbn [negb bind ret app].
  destruct (run_copy_file env (build_src env) (build_dest env)) as [e|]; cbn.
  - split; [|discriminate].
    destruct (exc_is_Exception e); cbn; eexists; (split; [reflexivity|]); eauto.
  - split; [exists []; split; [reflexivity | now left] | reflexivity].
Qed.

Lemma build_extensions_library_present_witness :
  build_extensions built_lib_env
  = ([EvIsFile "/v8/out/libmini_racer.so";
      EvCopyFile "/v8/out/libmini_racer.so" "build/lib/_v8.so"],
     Returned tt).
Proof.
  apply (proj2 (build_extensions_library_present built_lib_env eq_refl)).
  reflexivity.
Defined.

(** X9: when the engine library is missing, [build_ext] runs [build_v8]
    for the target [py_mini_racer_shared_lib], which is not the default
    one: whether or not V8 was built before, the first thing that
    happens is the python version check, and with a python that is not
    2.7 the command fails with the pip guidance around that error and
    copies nothing. *)
Theorem build_extensions_library_missing (env : Env) :
  os_path_isfile env (build_src env) = false ->
  run_reinitialize_command env "build_v8" "py_mini_racer_shared_lib" = None ->
  (exists tail,
     trace (build_extensions env)
     = [EvIsFile (build_src env);
        EvReinitializeCommand "build_v8" "py_mini_racer_shared_lib";
        EvCheckOutput python_version_cmd] ++ tail) /\
  (forall out text,
     run_check_output env python_version_cmd = inr out ->
     bytes_decode env (PyStr.strip out) = inr text ->
     PyStr.startswith "Python 2.7" text = false ->
     build_extensions env
     = ([EvIsFile (build_src env);
         EvReinitializeCommand "build_v8" "py_mini_racer_shared_lib";
         EvCheckOutput python_version_cmd;
         EvPrintExc (Exception python27_msg)],
        Raised (Exception (pip_guidance +:+ repr env (Exception python27_msg))))).
Proof.
  intros Hfile Hreinit.
  assert (Hbody : build_extensions_body env
                  = bind ([EvIsFile (build_src env);
                           EvReinitializeCommand "build_v8" "py_mini_racer_shared_lib"],
                          Returned tt)
                         (fun _ => bind (MiniRacerBuildV8_run env (Some "py_mini_racer_shared_lib"))
                                     (fun _ => copy_file env (build_src env) (build_dest env)))).
  { rewrite build_extensions_body_steps.
    unfold isfile, reinitialize_command, run_command_build_v8, lift_call.
    cbn [bind emit ret app]. rewrite Hfile, Hreinit. cbn [negb bind ret app].
    unfold bind.
    destruct (MiniRacerBuildV8_run env (Some "py_mini_racer_shared_lib")) as [t' [[]|e']].
    - destruct (copy_file env (build_src env) (build_dest env)) as [t'' r'']. reflexivity.
    - reflexivity. }
  assert (Hrun : exists rest r,
             MiniRacerBuildV8_run env (Some "py_mini_racer_shared_lib")
             = (EvCheckOutput python_version_cmd :: rest, r) /\
             (forall out text,
                run_check_output env python_version_cmd = inr out ->
                bytes_decode env (PyStr.strip out) = inr text ->
                PyStr.startswith "Python 2.7" text = false ->
                rest = [] /\ r = Raised (Exception python27_msg))).
  { unfold MiniRacerBuildV8_run, check_python_version, check_output, decode,
      is_depot_tools_checkout, check_call, build_v8, lift_call, isdir, print.
    cbn [target_is_default].
    change (String.eqb "py_mini_racer_shared_lib" "v8") with false. cbn [bind ret emit app].
    fold python_version_cmd.
    destruct (run_check_output env python_version_cmd) as [e|out]; simpl;
      [| destruct (bytes_decode env (PyStr.strip out)) as [e|text] eqn:Hdec; simpl;
         [| destruct (PyStr.startswith "Python 2.7" text) eqn:Hstart; simpl;
            [ destruct (os_path_isdir env (local_path env "vendor/depot_tools")); simpl;
              [| destruct (run_check_call env depot_tools_clone); simpl];
              try (destruct (run_build_v8 env (Some "py_mini_racer_shared_lib")); simpl) |]]];
      eexists _, _; (split; [reflexivity|]);
      intros out' text' H1 H2 H3; try discriminate H1;
      injection H1 as <-; rewrite Hdec in H2; try discriminate H2;
      injection H2 as <-; rewrite Hstart in H3; try discriminate H3;
      split; reflexivity. }
  destruct Hrun as (rest & r & Hrun & Hrefuse).
  unfold build_extensions, try_except_Exception, trace.
  rewrite Hbody, Hrun. split.
  - clear Hbody Hrefuse Hrun.
    destruct (copy_file env (build_src env) (build_dest env)) as [tc [[]|ec]];
      destruct r as [[]|e]; cbn;
      try (destruct (exc_is_Exception ec); cbn);
      try (destruct (exc_is_Exception e); cbn);
      eexists; reflexivity.
  - intros out text Hout Hdec Hstart.
    destruct (Hrefuse out text Hout Hdec Hstart) as [-> ->].
    cbn -[PyStr.percent_s err_msg pip_guidance]. now rewrite err_msg_filled.
Qed.

Lemma build_extensions_library_missing_witness :
  outcome (build_extensions linux_env)
  = Raised (Exception (pip_guidance +:+ repr linux_env (Exception python27_msg))).
Proof.
  destruct (build_extensions_library_missing linux_env eq_refl eq_refl) as [_ H].
  now rewrite (H "Python 3.7.4
" "Python 3.7.4" eq_refl eq_refl eq_refl).
Defined.

(** X10: an instance of [Exception] that gets out of [build_ext] is
    never one raised by a build step itself: it is the new [Exception]
    whose message is the pip guidance followed by the repr of the error
    a step raised, and the traceback of that error was printed last. *)
Theorem build_extensions_raises_wrapped_only (env : Env) (t : list Event) (e : PyExc) :
  build_extensions env = (t, Raised e) ->
  exc_is_Exception e = true ->
  exists t0 e0,
    build_extensions_body env = (t0, Raised e0) /\
    exc_is_Exception e0 = true /\
    t = t0 ++ [EvPrintExc e0] /\
    e = Exception (pip_guidance +:+ repr env e0).
Proof.
  unfold build_extensions, try_except_Exception.
  destruct (build_extensions_body env) as [t0 [[]|e0]]; [discriminate|].
  destruct (exc_is_Exception e0) eqn:Hcls; cbn -[PyStr.percent_s err_msg pip_guidance].
  - intros [= <- <-] _. exists t0, e0.
    repeat split; [exact Hcls|]. f_equal. exact (err_msg_filled (repr env e0)).
  - intros [= <- <-] He. congruence.
Qed.

Lemma build_extensions_raises_wrapped_only_witness :
  exists t0 e0,
    build_extensions_body linux_env = (t0, Raised e0) /\
    exc_is_Exception e0 = true /\
    [EvIsFile "/src/PyMiniRacer/py_mini_racer/extension/out/libmini_racer.so";
     EvReinitializeCommand "build_v8" "py_mini_racer_shared_lib";
     EvCheckOutput python_version_cmd;
     EvPrintExc (Exception python27_msg)] = t0 ++ [EvPrintExc e0] /\
    Exception (PyStr.percent_s err_msg (repr linux_env (Exception python27_msg)))
    = Exception (pip_guidance +:+ repr linux_env e0).
Proof.
  apply (build_extensions_raises_wrapped_only linux_env); reflexivity.
Defined.

Lemma history_of_unmarked (history_file : string) :
  PyStr.infix ".. :changelog:" history_file = false -> history_of history_file = history_file.
Proof. apply replace_absent. Qed.

Example history_of_marked :
  history_of ".. :changelog:

History
" = "

History
".
Proof. reflexivity. Qed.

(** * Properties of the embedding core *)

Module CoreFacts.
Import Core.

(** ** The value bridge *)

Definition encoding_failure (r : ExecutionResult) : Prop :=
  exists e, r = Failure e /\ err_kind e = EncodingError.

Lemma encoding_error_failure (message : string) : encoding_failure (encoding_error message).
Proof. eexists; split; reflexivity. Qed.

Lemma convert_items_failure conv elems e :
  convert_items conv elems = inl e -> exists v, In v elems /\ conv v = Failure e.
Proof.
  induction elems as [|v rest IH]; simpl; [discriminate|].
  destruct (conv v) as [t|e'] eqn:Hv.
  - destruct (convert_items conv rest) as [e'|ts]; [|discriminate].
    intros [= ->]. destruct (IH eq_refl) as (w & Hin & Hw). eauto.
  - intros [= ->]. eauto.
Qed.

Lemma convert_items_fails conv elems v e :
  In v elems -> conv v = Failure e -> exists e', convert_items conv elems = inl e'.
Proof.
  induction elems as [|w rest IH]; simpl; [contradiction|].
  intros [->|Hin] Hv.
  - rewrite Hv. eauto.
  - destruct (conv w); [|eauto].
    destruct (IH Hin Hv) as [e' ->]. eauto.
Qed.

Lemma convert_fields_failure cfg conv props e :
  convert_fields cfg conv props = inl e ->
  err_kind e = EncodingError \/ exists v, In v (map snd props) /\ conv v = Failure e.
Proof.
  induction props as [|[k v] rest IH]; simpl; [discriminate|].
  destruct (transcode cfg k); [|intros [= <-]; now left].
  destruct (conv v) as [t|e'] eqn:Hv.
  - destruct (convert_fields cfg conv rest) as [e'|fs]; [|discriminate].
    intros [= ->]. destruct (IH eq_refl) as [?|(w & Hin & Hw)]; eauto.
  - intros [= ->]. eauto.
Qed.

Lemma convert_fields_fails cfg conv props v e :
  In v (map snd props) -> conv v = Failure e ->
  exists e', convert_fields cfg conv props = inl e'.
Proof.
  induction props as [|[k w] rest IH]; simpl; [contradiction|].
  intros Hin Hv. destruct (transcode cfg k); [|eauto].
  destruct Hin as [->|Hin].
  - rewrite Hv. eauto.
  - destruct (conv w); [|eauto].
    destruct (IH Hin Hv) as [e' ->]. eauto.
Qed.

(** Whatever goes wrong inside the bridge is reported as an
    [EncodingError]. *)
Lemma convert_failure_kind cfg owner heap depth visited v e :
  convert cfg owner heap depth visited v = Failure e -> err_kind e = EncodingError.
Proof.
  revert visited v e. induction depth as [|depth IH]; intros visited v e;
    destruct v; simpl; try discriminate;
    try (destruct (transcode cfg s); [discriminate | now intros [= <-]]).
  all: destruct (heap !! id) as [[elems|props| |ts|message stack]|]; try discriminate;
    try (now intros [= <-]);
    try (destruct (transcode cfg message), (transcode_stack cfg stack);
         try discriminate; now intros [= <-]).
  all: destruct (decide (id ∈ visited)); try (now intros [= <-]).
  - destruct (convert_items _ elems) as [e'|items] eqn:Hitems; [|discriminate].
    intros [= ->]. apply convert_items_failure in Hitems as (w & _ & Hw). eauto.
  - destruct (convert_fields cfg _ props) as [e'|fields] eqn:Hfields; [|discriminate].
    intros [= ->]. apply convert_fields_failure in Hfields as [?|(w & _ & Hw)]; eauto.
Qed.

Lemma nested_le heap n m v : nested heap n v -> m <= n -> nested heap m v.
Proof.
  intros H. revert m. induction H as [v|n v w Hin _ IH]; intros m Hm.
  - replace m with 0 by lia. constructor.
  - destruct m as [|m]; [constructor|].
    econstructor; [exact Hin | apply IH; lia].
Qed.

Lemma reaches_nested heap n v u : reaches heap v u -> nested heap n u -> nested heap n v.
Proof.
  induction 1 as [v|v w u Hin _ IH]; intros Hu; [exact Hu|].
  apply nested_le with (n := S n); [|lia].
  econstructor; [exact Hin | exact (IH Hu)].
Qed.

(** A value that holds a cycle is nested to every depth. *)
Lemma cyclic_nested heap v : cyclic heap v -> forall n, nested heap n v.
Proof.
  intros (u & w & Hvu & Huw & Hwu) n.
  apply reaches_nested with (u := u); [exact Hvu|].
  induction n as [|n IH]; [constructor|].
  econstructor; [exact Huw|]. apply reaches_nested with (u := u); assumption.
Qed.

(** Going deeper than the bound allows ends in a failure. *)
Lemma convert_too_deep cfg owner heap depth visited v :
  nested heap (S depth) v ->
  exists e, convert cfg owner heap depth visited v = Failure e.
Proof.
  revert visited v. induction depth as [|depth IH]; intros visited v Hn;
    inversion Hn as [|n v' w (id & o & -> & Ho & Hw) Hdeep]; subst; simpl; rewrite Ho.
  - destruct o; simpl in Hw; try contradiction; eexists; reflexivity.
  - destruct o as [elems|props| | |]; simpl in Hw; try contradiction.
    + destruct (decide (id ∈ visited)); [eexists; reflexivity|].
      destruct (IH ({[id]} ∪ visited) w Hdeep) as [e He].
      destruct (convert_items_fails _ _ _ _ Hw He) as [e' ->]. eauto.
    + destruct (decide (id ∈ visited)); [eexists; reflexivity|].
      destruct (IH ({[id]} ∪ visited) w Hdeep) as [e He].
      destruct (convert_fields_fails cfg _ _ _ _ Hw He) as [e' ->]. eauto.
Qed.

(** An array or object met again while it is being converted is
    reported as a cycle. *)
Lemma convert_visited cfg owner heap depth visited id o :
  heap !! id = Some o -> children o <> [] -> id ∈ visited ->
  convert cfg owner heap (S depth) visited (EReference id) = encoding_error "cyclic structure".
Proof.
  intros Ho Hc Hin. simpl. rewrite Ho.
  destruct o; simpl in Hc; try contradiction; now rewrite decide_True.
Qed.


(** The same two facts for the other direction. *)
Lemma items_to_engine_failure conv heap items e :
  items_to_engine conv heap items = inl e ->
  exists heap' t, In t items /\ conv heap' t = inl e.
Proof.
  revert heap. induction items as [|t rest IH]; intros heap; simpl; [discriminate|].
  destruct (conv heap t) as [e'|[v heap']] eqn:Ht.
  - intros [= ->]. eauto.
  - destruct (items_to_engine conv heap' rest) as [e'|[vs heap'']] eqn:Hrest; [|discriminate].
    intros [= ->]. destruct (IH _ Hrest) as (h & u & Hin & Hu). eauto.
Qed.

Lemma items_to_engine_fails conv heap items u :
  In u items -> (forall heap', exists e, conv heap' u = inl e) ->
  exists e, items_to_engine conv heap items = inl e.
Proof.
  intros Hin Hu. revert heap. induction items as [|t rest IH]; intros heap;
    simpl; [contradiction|].
  destruct Hin as [->|Hin].
  - destruct (Hu heap) as [e ->]. eauto.
  - destruct (conv heap t) as [e'|[v heap']]; [eauto|].
    destruct (IH Hin heap') as [e ->]. eauto.
Qed.

Lemma fields_to_engine_failure cfg conv heap fields e :
  fields_to_engine cfg conv heap fields = inl e ->
  err_kind e = EncodingError \/
  exists heap' t, In t (map snd fields) /\ conv heap' t = inl e.
Proof.
  revert heap. induction fields as [|[key t] rest IH]; intros heap; simpl; [discriminate|].
  destruct (encode cfg key); [|intros [= <-]; now left].
  destruct (conv heap t) as [e'|[v heap']] eqn:Ht.
  - intros [= ->]. right. exists heap, t. split; [now left | exact Ht].
  - destruct (fields_to_engine cfg conv heap' rest) as [e'|[vs heap'']] eqn:Hrest;
      [|discriminate].
    intros [= ->]. destruct (IH _ Hrest) as [?|(h & u & Hin & Hu)]; [now left|].
    right. exists h, u. split; [now right | exact Hu].
Qed.

Lemma fields_to_engine_fails cfg conv heap fields u :
  In u (map snd fields) -> (forall heap', exists e, conv heap' u = inl e) ->
  exists e, fields_to_engine cfg conv heap fields = inl e.
Proof.
  intros Hin Hu. revert heap. induction fields as [|[key t] rest IH]; intros heap;
    simpl in Hin |- *; [contradiction|].
  destruct (encode cfg key) as [k|]; [|eauto].
  destruct Hin as [->|Hin].
  - destruct (Hu heap) as [e0 ->]. eauto.
  - destruct (conv heap t) as [e'|[v heap']]; [eauto|].
    destruct (IH Hin heap') as [e0 ->]. eauto.
Qed.

Lemma to_engine_failure_kind cfg owner depth heap t e :
  to_engine cfg owner depth heap t = inl e -> err_kind e = EncodingError.
Proof.
  revert heap t e. induction depth as [|depth IH]; intros heap t e;
    destruct t; simpl; try discriminate;
    try (destruct (encode cfg s); [discriminate | now intros [= <-]]);
    try (destruct (decide (owner0 = owner)); [discriminate | now intros [= <-]]);
    try (destruct (encode cfg message), (encode_stack cfg stack);
         try discriminate; now intros [= <-]);
    try (now intros [= <-]).
  - destruct (items_to_engine _ heap items) as [e'|[elems heap']] eqn:Hitems;
      [|discriminate].
    intros [= ->]. apply items_to_engine_failure in Hitems as (h & u & _ & Hu). eauto.
  - destruct (fields_to_engine cfg _ heap fields) as [e'|[props heap']] eqn:Hfields;
      [|discriminate].
    intros [= ->].
    apply fields_to_engine_failure in Hfields as [?|(h & u & _ & Hu)]; eauto.
Qed.

Lemma to_engine_too_deep cfg owner depth heap t :
  tagged_nested (S depth) t -> exists e, to_engine cfg owner depth heap t = inl e.
Proof.
  revert heap t. induction depth as [|depth IH]; intros heap t Hn;
    inversion Hn as [|n t' u Hu Hdeep]; subst.
  - destruct t; simpl in Hu; try contradiction; simpl; eauto.
  - destruct t; simpl in Hu; try contradiction; simpl.
    + destruct (items_to_engine_fails (to_engine cfg owner depth) heap items u Hu)
        as [e ->]; [intros h; apply IH, Hdeep | eauto].
    + destruct (fields_to_engine_fails cfg (to_engine cfg owner depth) heap fields u Hu)
        as [e ->]; [intros h; apply IH, Hdeep | eauto].
Qed.

(** Where the failure of an object's conversion comes from. *)
Lemma convert_fields_failure_cases cfg conv props e :
  convert_fields cfg conv props = inl e ->
  e = mkError EncodingError "invalid sequence in a property name" None \/
  exists v, In v (map snd props) /\ conv v = Failure e.
Proof.
  induction props as [|[k v] rest IH]; simpl; [discriminate|].
  destruct (transcode cfg k); [|intros [= <-]; now left].
  destruct (conv v) as [t|e'] eqn:Hv.
  - destruct (convert_fields cfg conv rest) as [e'|fs]; [|discriminate].
    intros [= ->]. destruct (IH eq_refl) as [?|(w & Hin & Hw)]; eauto.
  - intros [= ->]. eauto.
Qed.

Lemma convert_fields_failure_element cfg conv props e :
  (forall s, is_Some (transcode cfg s)) ->
  convert_fields cfg conv props = inl e ->
  exists v, In v (map snd props) /\ conv v = Failure e.
Proof.
  intros Htotal. induction props as [|[k v] rest IH]; simpl; [discriminate|].
  destruct (Htotal k) as [key ->].
  destruct (conv v) as [t|e'] eqn:Hv.
  - destruct (convert_fields cfg conv rest) as [e'|fs]; [|discriminate].
    intros [= ->]. destruct (IH eq_refl) as (w & Hin & Hw). eauto.
  - intros [= ->]. eauto.
Qed.

Lemma visited_grows (heap : gmap ObjId EngineObject) (visited : gset ObjId)
    (id : ObjId) (o : EngineObject) (depth : nat) :
  heap !! id = Some o -> id ∉ visited -> visited ⊆ dom heap ->
  size (dom heap) < S depth + size visited ->
  {[id]} ∪ visited ⊆ dom heap /\ size (dom heap) < depth + size ({[id]} ∪ visited).
Proof.
  intros Ho Hnew Hsub Hsize.
  assert (Hid : id ∈ dom heap) by (apply elem_of_dom; eauto).
  split.
  - apply union_subseteq. split; [apply singleton_subseteq_l, Hid | exact Hsub].
  - rewrite size_union by (apply disjoint_singleton_l, Hnew).
    rewrite size_singleton. lia.
Qed.

(** The depth bound is never what stops a conversion when it exceeds
    the number of objects in the heap: the identities on the way down
    are in the visited set, all different, so the way down is shorter
    than the heap is large. *)
Lemma convert_not_too_deep cfg owner heap depth visited v e :
  visited ⊆ dom heap ->
  size (dom heap) < depth + size visited ->
  convert cfg owner heap depth visited v = Failure e ->
  err_message e <> "maximum depth exceeded".
Proof.
  revert visited v e. induction depth as [|depth IH]; intros visited v e Hsub Hsize;
    destruct v; simpl; try discriminate;
    try (destruct (transcode cfg s); [discriminate | intros [= <-]; discriminate]).
  all: destruct (heap !! id) as [[elems|props| |ts|message stack]|] eqn:Ho;
    try discriminate; try (intros [= <-]; discriminate);
    try (destruct (transcode cfg message), (transcode_stack cfg stack);
         try discriminate; intros [= <-]; discriminate).
  1, 2: apply subseteq_size in Hsub; lia.
  all: destruct (decide (id ∈ visited)) as [|Hnew]; [intros [= <-]; discriminate|].
  all: destruct (visited_grows heap visited id _ depth Ho Hnew Hsub Hsize) as [Hsub' Hsize'].
  - destruct (convert_items _ elems) as [e'|items] eqn:Hitems; [|discriminate].
    intros [= ->]. apply convert_items_failure in Hitems as (w & _ & Hw). eauto.
  - destruct (convert_fields cfg _ props) as [e'|fields] eqn:Hfields; [|discriminate].
    intros [= ->].
    apply convert_fields_failure_cases in Hfields as [->|(w & _ & Hw)];
      [discriminate | eauto].
Qed.

(** In a closed heap with every string transcodable and a depth bound
    above the number of objects, the only thing that can go wrong is a
    cycle, and it is the visited set that reports it. *)
Lemma convert_failure_is_cycle cfg owner heap depth visited v e :
  (forall s, is_Some (transcode cfg s)) ->
  closed heap ->
  (forall id, v = EReference id -> is_Some (heap !! id)) ->
  visited ⊆ dom heap ->
  size (dom heap) < depth + size visited ->
  convert cfg owner heap depth visited v = Failure e ->
  e = mkError EncodingError "cyclic structure" None.
Proof.
  intros Htotal Hclosed. revert visited v e.
  induction depth as [|depth IH]; intros visited v e Hv Hsub Hsize;
    destruct v; simpl; try discriminate;
    try (destruct (Htotal s) as [text ->]; discriminate).
  all: destruct (Hv id eq_refl) as [o Ho]; rewrite Ho;
    destruct o as [elems|props| |ts|message stack]; try discriminate;
    try (destruct (Htotal message) as [text ->];
         destruct stack as [st|]; simpl;
         [destruct (Htotal st) as [text' ->]|]; discriminate).
  1, 2: apply subseteq_size in Hsub; lia.
  all: destruct (decide (id ∈ visited)) as [|Hnew]; [now intros [= <-]|].
  all: destruct (visited_grows heap visited id _ depth Ho Hnew Hsub Hsize) as [Hsub' Hsize'].
  - destruct (convert_items _ elems) as [e'|items] eqn:Hitems; [|discriminate].
    intros [= ->]. apply convert_items_failure in Hitems as (w & Hin & Hw).
    apply (IH ({[id]} ∪ visited) w); [|assumption..].
    intros id' ->. exact (Hclosed id _ id' Ho Hin).
  - destruct (convert_fields cfg _ props) as [e'|fields] eqn:Hfields; [|discriminate].
    intros [= ->].
    apply (convert_fields_failure_element _ _ _ _ Htotal) in Hfields as (w & Hin & Hw).
    apply (IH ({[id]} ∪ visited) w); [|assumption..].
    intros id' ->. exact (Hclosed id _ id' Ho Hin).
Qed.

Lemma cyclic_in_heap heap v : cyclic heap v -> forall id, v = EReference id -> is_Some (heap !! id).
Proof.
  intros (u & w & Hvu & (id0 & o0 & -> & Ho0 & _) & _) id ->.
  inversion Hvu as [|? w' ? (id1 & o1 & Heq & Ho1 & _) _]; subst.
  - eauto.
  - injection Heq as <-. eauto.
Qed.

Lemma reaches_inside heap v u w : reaches heap v u -> inside heap u w -> reaches heap v w.
Proof.
  induction 1 as [v|v x u Hin _ IH]; intros Huw.
  - econstructor; [exact Huw | constructor].
  - econstructor; [exact Hin | exact (IH Huw)].
Qed.

(** The visited set holds only arrays and objects that contain the
    value being converted, so what it reports is a cycle. *)
Lemma convert_cycle_found cfg owner heap depth visited v e :
  (forall id, id ∈ visited -> exists w, inside heap (EReference id) w /\ reaches heap w v) ->
  convert cfg owner heap depth visited v = Failure e ->
  err_message e = "cyclic structure" ->
  cyclic heap v.
Proof.
  revert visited v e. induction depth as [|depth IH]; intros visited v e Hvis;
    destruct v; simpl; try discriminate;
    try (destruct (transcode cfg s); [discriminate | intros [= <-]; discriminate]).
  all: destruct (heap !! id) as [[elems|props| |ts|message stack]|] eqn:Ho;
    try discriminate; try (intros [= <-]; discriminate);
    try (destruct (transcode cfg message), (transcode_stack cfg stack);
         try discriminate; intros [= <-]; discriminate).
  all: destruct (decide (id ∈ visited)) as [Hin|Hnew];
    [intros _ _; destruct (Hvis id Hin) as (w & Hw & Hback);
     exists (EReference id), w; split; [constructor | split; assumption]|].
  all: assert (Hstep : forall w, inside heap (EReference id) w ->
         forall id', id' ∈ {[id]} ∪ visited ->
                     exists x, inside heap (EReference id') x /\ reaches heap x w)
    by (intros w Hw id' [->%elem_of_singleton|Hid']%elem_of_union;
        [exists w; split; [exact Hw | constructor]
        |destruct (Hvis id' Hid') as (x & Hx & Hreach);
         exists x; split; [exact Hx | exact (reaches_inside _ _ _ _ Hreach Hw)]]).
  - destruct (convert_items _ elems) as [e'|items] eqn:Hitems; [|discriminate].
    intros [= ->] Hmsg. apply convert_items_failure in Hitems as (w & Hin & Hw).
    assert (Hvw : inside heap (EReference id) w) by (exists id, (EArray elems); auto).
    destruct (IH _ w e (Hstep w Hvw) Hw Hmsg) as (u & x & Hwu & Hux & Hxu).
    exists u, x. split; [econstructor; eassumption | split; assumption].
  - destruct (convert_fields cfg _ props) as [e'|fields] eqn:Hfields; [|discriminate].
    intros [= ->] Hmsg.
    apply convert_fields_failure_cases in Hfields as [->|(w & Hin & Hw)]; [discriminate|].
    assert (Hvw : inside heap (EReference id) w) by (exists id, (EObject props); auto).
    destruct (IH _ w e (Hstep w Hvw) Hw Hmsg) as (u & x & Hwu & Hux & Hxu).
    exists u, x. split; [econstructor; eassumption | split; assumption].
Qed.

(** The depth error is reported only after as many levels as the bound
    were entered. *)
Lemma convert_depth_reached cfg owner heap depth visited v e :
  convert cfg owner heap depth visited v = Failure e ->
  err_message e = "maximum depth exceeded" ->
  nested heap depth v.
Proof.
  revert visited v e. induction depth as [|depth IH]; intros visited v e; [constructor|].
  destruct v; simpl; try discriminate;
    try (destruct (transcode cfg s); [discriminate | intros [= <-]; discriminate]).
  destruct (heap !! id) as [[elems|props| |ts|message stack]|] eqn:Ho;
    try discriminate; try (intros [= <-]; discriminate);
    try (destruct (transcode cfg message), (transcode_stack cfg stack);
         try discriminate; intros [= <-]; discriminate).
  all: destruct (decide (id ∈ visited)); [intros [= <-]; discriminate|].
  - destruct (convert_items _ elems) as [e'|items] eqn:Hitems; [|discriminate].
    intros [= ->] Hmsg. apply convert_items_failure in Hitems as (w & Hin & Hw).
    apply nested_step with (w := w); [exists id, (EArray elems); auto | eauto].
  - destruct (convert_fields cfg _ props) as [e'|fields] eqn:Hfields; [|discriminate].
    intros [= ->] Hmsg.
    apply convert_fields_failure_cases in Hfields as [->|(w & Hin & Hw)]; [discriminate|].
    apply nested_step with (w := w); [exists id, (EObject props); auto | eauto].
Qed.

(** C5: every conversion across the bridge ends, in a value or in an
    [EncodingError], in both directions.  From the engine, a value that
    holds a cycle, or that is nested deeper than the configured bound
    (100 by default), ends in an [EncodingError]; and the cycle is found
    by the visited set, not by running out of depth: whenever the bound
    exceeds the number of objects in the heap no conversion ends in the
    depth error, and a cyclic value of a closed heap whose strings can be
    transcoded ends in the cycle error.  Neither error is reported
    without cause: the cycle error only for a value that holds a cycle
    (an array or object met twice side by side is none), the depth error
    only for a value nested as deep as the bound, which is 100 levels
    where nothing else is configured.  To the engine, where a tagged
    value is a finite tree and cannot hold a cycle, nesting deeper than
    the bound ends in an [EncodingError] too. *)
Theorem fromEngine_bounded (cfg : BridgeConfig) (owner : ContextId)
    (heap : gmap ObjId EngineObject) (v : EngineValue) (t : TaggedValue) :
  ((exists t', fromEngine cfg owner heap v = Success t') \/
   encoding_failure (fromEngine cfg owner heap v)) /\
  (cyclic heap v -> encoding_failure (fromEngine cfg owner heap v)) /\
  (nested heap (S (max_depth cfg)) v -> encoding_failure (fromEngine cfg owner heap v)) /\
  (size (dom heap) < max_depth cfg ->
   forall e, fromEngine cfg owner heap v = Failure e ->
             err_message e <> "maximum depth exceeded") /\
  (cyclic heap v ->
   (forall s, is_Some (transcode cfg s)) -> closed heap ->
   size (dom heap) < max_depth cfg ->
   fromEngine cfg owner heap v = encoding_error "cyclic structure") /\
  (forall e, fromEngine cfg owner heap v = Failure e ->
             err_message e = "cyclic structure" -> cyclic heap v) /\
  (forall e, fromEngine cfg owner heap v = Failure e ->
             err_message e = "maximum depth exceeded" -> nested heap (max_depth cfg) v) /\
  ((exists v' heap', toEngine cfg owner heap t = inr (v', heap')) \/
   (exists e, toEngine cfg owner heap t = inl e /\ err_kind e = EncodingError)) /\
  (tagged_nested (S (max_depth cfg)) t ->
   exists e, toEngine cfg owner heap t = inl e /\ err_kind e = EncodingError) /\
  (forall transcode encode,
     (nested heap 101 v ->
      encoding_failure (fromEngine (default_bridge transcode encode) owner heap v)) /\
     (forall e, fromEngine (default_bridge transcode encode) owner heap v = Failure e ->
                err_message e = "maximum depth exceeded" -> nested heap 100 v)).
Proof.
  assert (Hdeep : forall cfg', nested heap (S (max_depth cfg')) v ->
                  encoding_failure (fromEngine cfg' owner heap v)).
  { intros cfg' Hn. destruct (convert_too_deep cfg' owner heap _ ∅ v Hn) as [e He].
    exists e. split; [exact He | exact (convert_failure_kind _ _ _ _ _ _ _ He)]. }
  repeat apply conj.
  - destruct (fromEngine cfg owner heap v) as [t'|e] eqn:Hr; [left; eauto|].
    right. exists e. split; [reflexivity|].
    exact (convert_failure_kind _ _ _ _ _ _ _ Hr).
  - intros Hc. apply Hdeep, cyclic_nested, Hc.
  - apply Hdeep.
  - intros Hsize e. apply convert_not_too_deep; [set_solver|].
    rewrite size_empty. lia.
  - intros Hc Htotal Hclosed Hsize.
    destruct (Hdeep cfg (cyclic_nested _ _ Hc _)) as (e & He & _).
    rewrite He. unfold encoding_error. f_equal.
    apply (convert_failure_is_cycle cfg owner heap (max_depth cfg) ∅ v);
      [assumption | assumption | apply cyclic_in_heap, Hc | set_solver
      | rewrite size_empty; lia | exact He].
  - intros e. apply convert_cycle_found. intros id Hid. set_solver.
  - intros e. apply convert_depth_reached.
  - destruct (toEngine cfg owner heap t) as [e|[v' heap']] eqn:Hr; [|left; eauto].
    right. exists e. split; [reflexivity|].
    exact (to_engine_failure_kind _ _ _ _ _ _ Hr).
  - intros Hn. destruct (to_engine_too_deep cfg owner _ heap t Hn) as [e He].
    exists e. split; [exact He | exact (to_engine_failure_kind _ _ _ _ _ _ He)].
  - intros tr en. split.
    + apply (Hdeep (default_bridge tr en)).
    + intros e. apply (convert_depth_reached (default_bridge tr en)).
Qed.

Lemma fromEngine_bounded_witness :
  fromEngine ToyEngine.bridge 0
    {[ 7 := EArray [EInteger 1; EReference 7] ]} (EReference 7)
  = encoding_error "cyclic structure" /\
  exists e,
    toEngine (mkBridge 1 ToyEngine.text (fun s => Some (ToyEngine.units s))) 0 ∅
      (Array [Array [Array []]]) = inl e /\
    err_kind e = EncodingError.
Proof.
  split.
  - apply (proj1 (proj2 (proj2 (proj2 (proj2
             (fromEngine_bounded ToyEngine.bridge 0
                {[ 7 := EArray [EInteger 1; EReference 7] ]} (EReference 7) Null)))))).
    + exists (EReference 7), (EReference 7).
      assert (Hin : inside {[ 7 := EArray [EInteger 1; EReference 7] ]}
                      (EReference 7) (EReference 7)).
      { exists 7, (EArray [EInteger 1; EReference 7]).
        split; [reflexivity|]. split; [apply lookup_singleton_eq | simpl; auto]. }
      split; [constructor|]. split; [exact Hin | constructor].
    + intros s. eexists. reflexivity.
    + intros id o id' Ho Hin.
      apply lookup_singleton_Some in Ho as [<- <-].
      simpl in Hin. destruct Hin as [H|[H|[]]]; [discriminate|].
      injection H as <-. rewrite lookup_singleton_eq. eauto.
    + rewrite dom_singleton_L, size_singleton. cbn. unfold default_max_depth. lia.
  - apply (proj1 (proj2 (proj2 (proj2 (proj2 (proj2 (proj2 (proj2 (proj2
             (fromEngine_bounded (mkBridge 1 ToyEngine.text (fun s => Some (ToyEngine.units s)))
                0 ∅ ENull (Array [Array [Array []]]))))))))))).
    apply tagged_nested_step with (u := Array [Array []]); [simpl; auto|].
    apply tagged_nested_step with (u := Array []); [simpl; auto|].
    constructor.
Defined.

Example fromEngine_shared_not_cyclic :
  fromEngine ToyEngine.bridge 0
    {[ 1 := EArray [EReference 2; EReference 2]; 2 := EArray [EInteger 5] ]} (EReference 1)
  = Success (Array [Array [Integer 5]; Array [Integer 5]]).
Proof. vm_compute. reflexivity. Qed.

Example fromEngine_self_reference :
  fromEngine ToyEngine.bridge 0 {[ 7 := EArray [EInteger 1; EReference 7] ]} (EReference 7)
  = encoding_error "cyclic structure".
Proof. vm_compute. reflexivity. Qed.

(** ** Disposal *)

Definition disposed_failure (r : ExecutionResult) : Prop :=
  exists e, r = Failure e /\ err_kind e = ContextDisposedError.

Definition is_call (st : Step) : bool :=
  match st with Call _ => true | _ => false end.

(** Whether the execution slot is taken, as a number. *)
Definition busy (s : Running) : nat :=
  match run_slot s with Some _ => 1 | None => 0 end.

(** The tickets below the next one are those of the calls made so
    far. *)
Definition tickets_issued (s : Running) : Prop :=
  (forall k r, run_slot s = Some (k, r) -> k < run_next s) /\
  Forall (fun w => fst w < run_next s) (run_waiting s).

(** The context after [dispose] was called, with [n] the first ticket
    not yet given out at that moment. *)
Definition dispose_called (n : nat) (s : Running) : Prop :=
  ctx_state (run_context s) <> Active /\
  run_waiting s = [] /\
  n <= run_next s /\
  (forall k r, run_slot s = Some (k, r) -> k < n).

Lemma disposed_result_failure : disposed_failure disposed_result.
Proof. eexists; split; reflexivity. Qed.

Lemma dispose_state (c : Context) : ctx_state (dispose c) = Disposed.
Proof. unfold dispose, dispose_end, dispose_begin. destruct c as [? ? ? [] ?]; reflexivity. Qed.

Lemma dispose_begin_state (c : Context) : ctx_state (dispose_begin c) <> Active.
Proof. unfold dispose_begin. destruct c as [? ? ? [] ?]; discriminate. Qed.

Lemma dispose_end_state (c : Context) :
  ctx_state c <> Active -> ctx_state (dispose_end c) <> Active.
Proof. unfold dispose_end. destruct c as [? ? ? [] ?]; simpl; congruence. Qed.

Lemma perform_not_active E cfg (c : Context) (r : Request) :
  ctx_state c <> Active -> perform E cfg c r = (disposed_result, c).
Proof.
  intros Hs. destruct r; unfold perform, invoke, evaluate, callFunction;
    destruct (ctx_state c); try contradiction; reflexivity.
Qed.

(** On an Active context an operation is its engine call. *)
Lemma perform_active E cfg (c : Context) (r : Request) :
  ctx_state c = Active -> perform E cfg c r = execute E cfg c r.
Proof.
  intros Hs. destruct r; unfold perform, invoke, evaluate, callFunction, execute;
    rewrite Hs; destruct (ctx_isolate c); reflexivity.
Qed.

(** An engine call never makes a context Active. *)
Lemma supervise_state cfg (c : Context) (ended : EngineOutcome * Isolate) :
  ctx_state c <> Active -> ctx_state (snd (supervise cfg c ended)) <> Active.
Proof.
  intros Hs. destruct ended as [[v|m|m st|[]|] iso]; simpl; try exact Hs; discriminate.
Qed.

Lemma execute_state E cfg (c : Context) (r : Request) :
  ctx_state c <> Active -> ctx_state (snd (execute E cfg c r)) <> Active.
Proof.
  intros Hs. unfold execute. destruct (ctx_isolate c); [|exact Hs].
  apply supervise_state, Hs.
Qed.

Lemma free_slot_not_active results (c : Context) waiting next :
  ctx_state c <> Active ->
  free_slot results c waiting next
  = (results ++ reject_all waiting, mkRunning c None [] next).
Proof. intros Hs. unfold free_slot. destruct (ctx_state c); [contradiction|reflexivity..]. Qed.

Lemma tickets_later (n : nat) (waiting : list (nat * Request)) :
  Forall (fun w => fst w < n) waiting -> Forall (fun w => fst w < S n) waiting.
Proof. intros H. eapply Forall_impl; [exact H | simpl; intros; lia]. Qed.

Lemma tickets_issued_step E cfg (s : Running) (st : Step) :
  tickets_issued s -> tickets_issued (snd (step E cfg s st)).
Proof.
  intros Hall. pose proof Hall as [Hslot Hwait]. destruct st; simpl.
  - destruct (ctx_state (run_context s)).
    + destruct (run_slot s) as [[k0 r0]|] eqn:Hs; simpl; split; simpl.
      * intros k r' H. specialize (Hslot k r' H). lia.
      * apply Forall_app. split; [now apply tickets_later | repeat constructor].
      * intros k r' [= <- <-]. lia.
      * now apply tickets_later.
    + split; simpl; [|now apply tickets_later].
      intros k r' H. specialize (Hslot k r' H). lia.
    + split; simpl; [|now apply tickets_later].
      intros k r' H. specialize (Hslot k r' H). lia.
  - destruct (run_slot s) as [[k r]|]; [|exact Hall].
    destruct (execute E cfg (run_context s) r) as [result c'].
    unfold free_slot. destruct (ctx_state c').
    + destruct (run_waiting s) as [|[k' r'] rest]; simpl; split; simpl.
      * intros ? ? [=].
      * constructor.
      * intros k0 r0 [= <- <-]. now inversion Hwait.
      * now inversion Hwait.
    + split; simpl; [intros ? ? [=] | constructor].
    + split; simpl; [intros ? ? [=] | constructor].
  - destruct (run_slot s) as [[k r]|]; [|exact Hall].
    destruct (ctx_state (run_context s)) eqn:Hst; [exact Hall|..];
      unfold free_slot; rewrite Hst; split; simpl;
      try (intros ? ? [=]); constructor.
  - split; simpl; [exact Hslot | constructor].
  - destruct (run_slot s) as [[k r]|] eqn:Hs; simpl; [exact Hall|].
    split; simpl; [intros ? ? [=] | exact Hwait].
Qed.

Lemma tickets_issued_run E cfg (schedule : list Step) (s : Running) :
  tickets_issued s -> tickets_issued (snd (run E cfg s schedule)).
Proof.
  revert s. induction schedule as [|st rest IH]; intros s Hs; [exact Hs|].
  pose proof (tickets_issued_step E cfg s st Hs) as Hs'.
  simpl. destruct (step E cfg s st) as [results s']. simpl in Hs'.
  specialize (IH s' Hs'). destruct (run E cfg s' rest) as [later s'']. exact IH.
Qed.

Lemma run_app E cfg (a b : list Step) (s : Running) :
  run E cfg s (a ++ b)
  = (fst (run E cfg s a) ++ fst (run E cfg (snd (run E cfg s a)) b),
     snd (run E cfg (snd (run E cfg s a)) b)).
Proof.
  revert s. induction a as [|st a IH]; intros s; simpl.
  - destruct (run E cfg s b); reflexivity.
  - destruct (step E cfg s st) as [results s']. rewrite IH.
    destruct (run E cfg s' a) as [ra sa]. simpl.
    destruct (run E cfg sa b) as [rb sb]. simpl. now rewrite app_assoc.
Qed.

(** Once [dispose] was called, a step answers a call on the spot with
    the disposed error, and the only other result there can be is that
    of the execution that held the slot. *)
Lemma step_after_dispose E cfg (n : nat) (s : Running) (st : Step) :
  dispose_called n s ->
  dispose_called n (snd (step E cfg s st)) /\
  List.filter (fun p => Nat.leb n (fst p)) (fst (step E cfg s st))
  = (if is_call st then [(run_next s, disposed_result)] else []) /\
  run_next (snd (step E cfg s st)) = run_next s + (if is_call st then 1 else 0) /\
  length (List.filter (fun p => Nat.ltb (fst p) n) (fst (step E cfg s st)))
  + busy (snd (step E cfg s st)) = busy s.
Proof.
  intros (Hstate & Hwait & Hnext & Hslot). unfold busy. destruct st; simpl.
  - destruct (ctx_state (run_context s)) eqn:Hst; [contradiction|..]; simpl;
      (split; [repeat split; simpl; try assumption; try lia; rewrite Hst; discriminate|]);
      (destruct (Nat.leb_spec n (run_next s)); [|lia]);
      (destruct (Nat.ltb_spec (run_next s) n); [lia|]);
      repeat split; simpl; lia.
  - destruct (run_slot s) as [[k r]|] eqn:Hs.
    + pose proof (execute_state E cfg (run_context s) r Hstate) as Hstate'.
      destruct (execute E cfg (run_context s) r) as [result c']. simpl in Hstate'.
      rewrite free_slot_not_active by exact Hstate'. rewrite Hwait. simpl.
      specialize (Hslot k r eq_refl).
      destruct (Nat.leb_spec n k); [lia|]. destruct (Nat.ltb_spec k n); [|lia].
      repeat split; simpl; try assumption; try lia. intros ? ? [=].
    + simpl. rewrite Hs. repeat split; try assumption; try lia.
      intros ? ? H. rewrite Hs in H. discriminate H.
  - destruct (run_slot s) as [[k r]|] eqn:Hs.
    + destruct (ctx_state (run_context s)) eqn:Hst; [contradiction|..];
        unfold free_slot; rewrite Hst, Hwait; simpl;
        specialize (Hslot k r eq_refl);
        (destruct (Nat.leb_spec n k); [lia|]); (destruct (Nat.ltb_spec k n); [|lia]);
        repeat split; simpl; try assumption; try lia;
        try (rewrite Hst; discriminate); intros ? ? [=].
    + simpl. rewrite Hs. repeat split; try assumption; try lia.
      intros ? ? H. rewrite Hs in H. discriminate H.
  - rewrite Hwait. simpl. repeat split; try assumption; try lia.
    apply dispose_begin_state.
  - destruct (run_slot s) as [[k r]|] eqn:Hs; simpl.
    + rewrite Hs. repeat split; try assumption; try lia.
      intros ? ? H. rewrite Hs in H. injection H as <- <-. now apply (Hslot k r).
    + repeat split; simpl; try assumption; try lia;
        try (now apply dispose_end_state); intros ? ? [=].
Qed.

Lemma run_after_dispose E cfg (n : nat) (schedule : list Step) (s : Running) :
  dispose_called n s ->
  dispose_called n (snd (run E cfg s schedule)) /\
  List.filter (fun p => Nat.leb n (fst p)) (fst (run E cfg s schedule))
  = map (fun k => (k, disposed_result))
        (seq (run_next s) (length (List.filter is_call schedule))) /\
  length (List.filter (fun p => Nat.ltb (fst p) n) (fst (run E cfg s schedule)))
  + busy (snd (run E cfg s schedule)) = busy s.
Proof.
  revert s. induction schedule as [|st rest IH]; intros s Hs.
  - simpl. split; [exact Hs|]. split; [reflexivity | lia].
  - destruct (step_after_dispose E cfg n s st Hs) as (Hs' & Hhigh & Hnext & Hlow).
    simpl. destruct (step E cfg s st) as [results s']. simpl in Hs', Hhigh, Hnext, Hlow.
    destruct (IH s' Hs') as (Hs'' & Hhigh' & Hlow').
    destruct (run E cfg s' rest) as [later s'']. simpl in Hs'', Hhigh', Hlow' |- *.
    rewrite !List.filter_app, !length_app, Hhigh, Hhigh', Hnext.
    split; [exact Hs''|]. split; [|lia].
    destruct (is_call st); simpl; [|now rewrite Nat.add_0_r].
    now rewrite Nat.add_1_r.
Qed.

(** C3: [dispose] is idempotent and leaves the context Disposed, the
    isolate it still had released, and a disposed context answers every
    operation (evaluate, callFunction, invoking a function handle) with
    a [ContextDisposedError] and stays as it is.  With several threads
    at work the same holds from the moment [dispose] is called: in every
    schedule of steps, whatever ran before and also while an execution
    is still in the slot and the [dispose] has not completed, each
    operation called after the call of [dispose] gets exactly one
    result, at once, and it is a [ContextDisposedError]; the only other
    result that can still arrive is that of the execution that was in
    the slot when [dispose] was called; and the context is never Active
    again. *)
Theorem dispose_is_final (E : Engine) (cfg : BridgeConfig) (c : Context) :
  dispose (dispose c) = dispose c /\
  (ctx_state (dispose c) = Disposed /\
   (ctx_state c <> Disposed -> ctx_isolate (dispose c) = None)) /\
  (forall r : Request,
     disposed_failure (fst (perform E cfg (dispose c) r)) /\
     snd (perform E cfg (dispose c) r) = dispose c) /\
  (forall before after : list Step,
     let called := snd (run E cfg (idle c) (before ++ [DisposeCalled])) in
     let delivered := fst (run E cfg called after) in
     List.filter (fun p => Nat.leb (run_next called) (fst p)) delivered
     = map (fun k => (k, disposed_result))
           (seq (run_next called) (length (List.filter is_call after))) /\
     length (List.filter (fun p => Nat.ltb (fst p) (run_next called)) delivered) <= 1 /\
     ctx_state (run_context (snd (run E cfg called after))) <> Active) /\
  disposed_failure disposed_result.
Proof.
  split; [|split; [|split; [|split]]].
  - unfold dispose, dispose_end, dispose_begin. destruct c as [? ? ? [] ?]; reflexivity.
  - unfold dispose, dispose_end, dispose_begin.
    destruct c as [? ? ? [] ?]; split; try reflexivity; intros H; now destruct H.
  - intros r. rewrite perform_not_active by (rewrite dispose_state; discriminate).
    split; [apply disposed_result_failure | reflexivity].
  - intros before after. cbv zeta.
    set (called := snd (run E cfg (idle c) (before ++ [DisposeCalled]))).
    assert (Hcalled : dispose_called (run_next called) called).
    { subst called. rewrite run_app. simpl.
      assert (Hissued : tickets_issued (snd (run E cfg (idle c) before))).
      { apply tickets_issued_run. split; [intros ? ? [=] | constructor]. }
      destruct Hissued as [Hslot _].
      repeat split; simpl; try lia; [apply dispose_begin_state | exact Hslot]. }
    destruct (run_after_dispose E cfg _ after called Hcalled) as ((Hstate & _) & Hhigh & Hlow).
    split; [exact Hhigh|]. split; [|exact Hstate].
    unfold busy in Hlow. destruct (run_slot called), (run_slot (snd (run E cfg called after))); lia.
  - apply disposed_result_failure.
Qed.

Lemma dispose_is_final_witness :
  ctx_isolate (dispose (create 0 None None)) = None /\
  List.filter (fun p => Nat.leb 1 (fst p))
    (fst (run ToyEngine.engine ToyEngine.bridge
            (snd (run ToyEngine.engine ToyEngine.bridge (idle (create 0 None None))
                    ([Call (ReqEvaluate "x=1" None)] ++ [DisposeCalled])))
            [Finish; DisposeCompleted; Call (ReqEvaluate "typeof x" None); Finish;
             Call (ReqInvoke 3 [])]))
  = [(1, disposed_result); (2, disposed_result)].
Proof.
  pose proof (dispose_is_final ToyEngine.engine ToyEngine.bridge (create 0 None None))
    as (_ & (_ & Hreleased) & _ & Hrun & _).
  split.
  - apply Hreleased. discriminate.
  - exact (proj1 (Hrun [Call (ReqEvaluate "x=1" None)]
                       [Finish; DisposeCompleted; Call (ReqEvaluate "typeof x" None); Finish;
                        Call (ReqInvoke 3 [])])).
Defined.

(** An execution that holds the slot when [dispose] is called runs to
    its end, and nothing runs after it. *)
Example toy_dispose_during_execution :
  fst (run ToyEngine.engine ToyEngine.bridge (idle (create 0 None None))
         [Call (ReqEvaluate "x=1" None); DisposeCalled; Finish; DisposeCompleted;
          Call (ReqEvaluate "typeof x" None); Finish; Call (ReqInvoke 3 [])])
  = [(0, Success (Integer 1)); (1, disposed_result); (2, disposed_result)].
Proof. vm_compute. reflexivity. Qed.

Example toy_calls_take_turns :
  fst (run ToyEngine.engine ToyEngine.bridge (idle (create 0 None None))
         [Call (ReqEvaluate "typeof x" None); Call (ReqEvaluate "x=1" None);
          Call (ReqEvaluate "typeof x" None); Finish; Finish; Finish])
  = [(0, Success (String "undefined")); (1, Success (Integer 1));
     (2, Success (String "number"))].
Proof. vm_compute. reflexivity. Qed.

(** ** Isolation of contexts *)








End CoreFacts.
